(** * SUIT trading bot ([main_rm2.py]): a shallow embedding and its properties

    The module runs one sequential decision loop: refresh the eligible
    instruments from the broker's payout feed, wait for the pre-close window
    of the running candle, scan the eligible instruments for a SuperTrend
    reversal, wait for the candle open and run one martingale ladder on the
    first instrument that signalled.

    Conventions of the embedding.
    - Python values read from the payout feed are JSON values ([json]).
    - A Python exception is [None] in an [option] (or [Raised]); the
      [try]/[except] blocks of the source turn it into their fallback.
    - [global_value.pairs] is a Python [dict]: an insertion-ordered
      association list ([PyDict]).
    - Every call into the broker, the candle provider, the wall clock and
      the logger is recorded, in order and with the answer it got, in the
      [trace] of the [World]; the answers come from an [Env] of oracles that
      may depend on everything that happened before.
    - Timestamps are the exact rational values of the floats of the source.
    - Strings are byte strings; they agree with Python's on ASCII names. *)

From Stdlib Require Import ZArith QArith Qround Bool List String Ascii Lia Lqa.
Import ListNotations.
Local Open Scope string_scope.
Local Open Scope Z_scope.

(** ** Python values of the payout feed *)

(** A Python [float]: not-a-number, an infinity, or a finite value, kept as
    the exact rational it denotes. *)
Inductive pyfloat : Type :=
| FNan
| FInf (negative : bool)
| FFin (q : Q).

(** What [json.loads] can return. An object keeps its keys in order. *)
#[warnings="-register-all"]
Inductive json : Type :=
| JNull
| JBool (b : bool)
| JInt (z : Z)
| JFloat (f : pyfloat)
| JStr (s : string)
| JArr (l : list json)
| JObj (l : list (string * json)).

Module Py.

(** [s.endswith(suffix)] on strings. *)
Definition str_endswith (s suffix : string) : bool :=
  (String.length suffix <=? String.length s)%nat
  && String.eqb
       (substring (String.length s - String.length suffix)
                  (String.length suffix) s)
       suffix.

(** The characters of a string, each as a one-character string: what
    iterating over a [str] yields. *)
Fixpoint chars (s : string) : list json :=
  match s with
  | EmptyString => []
  | String c r => JStr (String c EmptyString) :: chars r
  end.

(** [v[i]] for a literal index [i >= 0]. [None] is the exception:
    [IndexError] out of range, [KeyError] on an object (its keys are
    strings, never the integer [i]), [TypeError] on the other values. *)
Definition getitem (v : json) (i : nat) : option json :=
  match v with
  | JArr l => nth_error l i
  | JStr s =>
      match String.get i s with
      | Some c => Some (JStr (String c EmptyString))
      | None => None
      end
  | _ => None
  end.

(** [for x in v]: the items the loop visits, [None] when [v] is not
    iterable ([TypeError]). An object is iterated over its keys. *)
Definition iter (v : json) : option (list json) :=
  match v with
  | JArr l => Some l
  | JObj kvs => Some (map (fun kv => JStr (fst kv)) kvs)
  | JStr s => Some (chars s)
  | _ => None
  end.

(** [v.endswith(suffix)]: only a [str] has the method ([AttributeError]
    otherwise). *)
Definition endswith (v : json) (suffix : string) : option bool :=
  match v with
  | JStr s => Some (str_endswith s suffix)
  | _ => None
  end.

(** [v == s] for a string literal [s]: never raises. *)
Definition eq_str (v : json) (s : string) : bool :=
  match v with
  | JStr t => String.eqb t s
  | _ => false
  end.

(** Truth value of [v] in a condition. *)
Definition truthy (v : json) : bool :=
  match v with
  | JNull => false
  | JBool b => b
  | JInt z => negb (z =? 0)
  | JFloat FNan => true
  | JFloat (FInf _) => true
  | JFloat (FFin q) => negb (Qeq_bool q 0)
  | JStr s => negb (String.eqb s "")
  | JArr l => match l with [] => false | _ => true end
  | JObj l => match l with [] => false | _ => true end
  end.

(** [v >= n] for an integer [n]. Numbers compare by value ([bool] is an
    [int]); the comparison with anything else raises [TypeError]. *)
Definition ge_int (v : json) (n : Z) : option bool :=
  match v with
  | JInt z => Some (n <=? z)
  | JBool b => Some (n <=? (if b then 1 else 0))
  | JFloat FNan => Some false
  | JFloat (FInf negative) => Some (negb negative)
  | JFloat (FFin q) => Some (Qle_bool (inject_Z n) q)
  | _ => None
  end.

(** [s[:n]] and [s[n:]] on strings. *)
Definition slice_to (n : nat) (s : string) : string := substring 0 n s.

Definition slice_from (n : nat) (s : string) : string :=
  substring n (String.length s - n) s.

(** [df.tail(n)] on a list of rows. *)
Definition tail {A : Type} (n : nat) (l : list A) : list A :=
  skipn (List.length l - n) l.

End Py.

(** ** Python dictionaries keyed by strings *)

Module PyDict.
Section Dict.

Context {V : Type}.

(** [d.get(k)] *)
Fixpoint get (k : string) (d : list (string * V)) : option V :=
  match d with
  | [] => None
  | (k', v) :: r => if String.eqb k k' then Some v else get k r
  end.

(** [k in d] *)
Definition mem (k : string) (d : list (string * V)) : bool :=
  match get k d with Some _ => true | None => false end.

(** [d[k] = v]: a key already present keeps its place, a new key goes
    last. *)
Fixpoint set (k : string) (v : V) (d : list (string * V))
  : list (string * V) :=
  match d with
  | [] => [(k, v)]
  | (k', v') :: r =>
      if String.eqb k k' then (k, v) :: r else (k', v') :: set k v r
  end.

(** [del d[k]]: the entry of key [k] goes, the others keep their order.
    (On an absent key, where Python raises, nothing happens here: the
    source tests [k in d] first.) *)
Definition del (k : string) (d : list (string * V)) : list (string * V) :=
  filter (fun kv => negb (String.eqb k (fst kv))) d.

(** [list(d.keys())] *)
Definition keys (d : list (string * V)) : list string := map fst d.

End Dict.
End PyDict.

(** ** Bot settings *)

Record Config : Type := {
  min_payout : Z;
  period : Z;
  expiration : Z;
  INITIAL_AMOUNT : Z;
  MARTINGALE_LEVEL : Z
}.

(** The values the module sets at import time. *)
Definition bot_settings : Config :=
  {| min_payout := 60;
     period := 60;
     expiration := 60;
     INITIAL_AMOUNT := 1;
     MARTINGALE_LEVEL := 3 |}.

(** ** Data *)

(** One candle as [get_oanda_candles] builds it. [time] is the parsed
    timestamp. *)
Record Candle : Type := {
  time : Z;
  c_open : Q;
  c_high : Q;
  c_low : Q;
  c_close : Q
}.

(** One row of the frame [prepare_data] returns: after [dropna] every
    column holds a value. [signal] is the difference of [SUPERTd] to the
    row before. *)
Record Row : Type := {
  timestamp : Z;
  open : Q;
  high : Q;
  low : Q;
  close : Q;
  RSI : Q;
  SUPERT : Q;
  SUPERTd : Z;
  signal : Z
}.

(** A value of [global_value.pairs]: [{'payout': ..., 'type': ...}]. *)
Record PairInfo : Type := {
  payout : json;
  type : json
}.

(** The lines the module writes to [global_value.logger]. *)
Inductive LogMsg : Type :=
| MsgCandleFetchFailed (pair : string)
| MsgPayoutParseFailed
| MsgBuySignal
| MsgSellSignal
| MsgTradeFailed
| MsgTradeData (rows : list Row)
| MsgWin
| MsgLoss
| MsgCycleStart
| MsgPayoutFailed
| MsgPreClose
| MsgChecking (n : nat)
| MsgNoData (pair : string)
| MsgSignalDetected (pair : string)
| MsgSelected (pair decision : string)
| MsgNoSignal (pair : string)
| MsgExecuting (pair action : string)
| MsgNoValidSignal.

(** What the program does to the outside, with the answer it received. *)
Inductive Event : Type :=
| Log (msg : LogMsg)
| Sleep (seconds : Q)
| Now (t : Q)
| Connect
| Disconnect
| Buy (amount : Z) (active action : string) (expirations : Z)
      (reply : bool * option string)
| CheckWin (trade_id : string) (reply : json * string)
| Candles (instrument : string) (reply : option (list Candle)).

(** The collaborators. Each answer may depend on the history so far.
    - [PayoutData]: what [json.loads(global_value.PayoutData)] returns,
      [None] when it raises.
    - [oanda_candles]: the candles of the response to the request in
      [get_oanda_candles], with their fields parsed; [None] when the
      request or the parsing raises.
    - [api_buy], [api_check_win]: the broker client.
    - [clock]: [datetime.now(timezone.utc).timestamp()].
    - [ta_rsi], [ta_supertrend]: the indicator library; a column entry
      [None] is NaN, a result [None] is the library returning [None]. The
      SuperTrend result pairs the band with the direction. *)
Record Env : Type := {
  PayoutData : list Event -> option json;
  oanda_candles : list Event -> string -> option (list Candle);
  api_buy : list Event -> Z -> string -> string -> Z -> bool * option string;
  api_check_win : list Event -> string -> json * string;
  clock : list Event -> Q;
  ta_rsi : list Q -> option (list (option Q));
  ta_supertrend :
    list Q -> list Q -> list Q -> option (list (option Q * option Z))
}.

(** The mutable state of the process and the history of its actions. *)
Record World : Type := {
  pairs : list (string * PairInfo);
  trace : list Event
}.

Definition emit (e : Event) (w : World) : World :=
  {| pairs := pairs w; trace := trace w ++ [e] |}.

Definition set_pairs (p : list (string * PairInfo)) (w : World) : World :=
  {| pairs := p; trace := trace w |}.

(** How a call that may block or fail ends: it returns, an exception
    escapes it, or it is still polling when the observation stops. *)
Inductive outcome (A : Type) : Type :=
| Returned (a : A)
| Raised
| Waiting.

Arguments Returned {A} a.
Arguments Raised {A}.
Arguments Waiting {A}.

Definition bind {A B : Type} (c : outcome A) (k : A -> outcome B)
  : outcome B :=
  match c with
  | Returned a => k a
  | Raised => Raised
  | Waiting => Waiting
  end.

Notation "x <- c ;; k" := (bind c (fun x => k))
  (at level 61, c at next level, right associativity).

Definition obind {A B : Type} (c : option A) (k : A -> option B)
  : option B :=
  match c with
  | Some a => k a
  | None => None
  end.

Notation "x <-? c ;; k" := (obind c (fun x => k))
  (at level 61, c at next level, right associativity).

(** ** Eligibility filter: [get_payout] *)

(** The body of [for pair in d]. [None]: the iteration raised. *)
Definition get_payout_body (cfg : Config) (pair : json)
  (pairs : list (string * PairInfo)) : option (list (string * PairInfo)) :=
  name <-? Py.getitem pair 1 ;;
  payout <-? Py.getitem pair 5 ;;
  asset_type <-? Py.getitem pair 3 ;;
  is_active <-? Py.getitem pair 14 ;;
  otc <-? Py.endswith name "_otc" ;;
  if negb otc && Py.eq_str asset_type "currency" && Py.truthy is_active then
    enough <-? Py.ge_int payout (min_payout cfg) ;;
    match name with
    | JStr key =>
        if enough then
          Some (PyDict.set key {| payout := payout; type := asset_type |}
                           pairs)
        else if PyDict.mem key pairs then Some (PyDict.del key pairs)
        else Some pairs
    | _ => None
    end
  else Some pairs.

(** The [for] loop inside the [try]: [true] when it ran to its end,
    [false] when an iteration raised; the dictionary is the shared one, so
    what earlier iterations wrote stays. *)
Fixpoint get_payout_loop (cfg : Config) (d : list json)
  (pairs : list (string * PairInfo)) : bool * list (string * PairInfo) :=
  match d with
  | [] => (true, pairs)
  | pair_ :: rest =>
      match get_payout_body cfg pair_ pairs with
      | Some pairs' => get_payout_loop cfg rest pairs'
      | None => (false, pairs)
      end
  end.

Definition get_payout (cfg : Config) (E : Env) (w : World) : bool * World :=
  match d <-? PayoutData E (trace w) ;; Py.iter d with
  | None => (false, emit (Log MsgPayoutParseFailed) w)
  | Some items =>
      let '(ok, pairs') := get_payout_loop cfg items (pairs w) in
      if ok then (true, set_pairs pairs' w)
      else (false, emit (Log MsgPayoutParseFailed) (set_pairs pairs' w))
  end.

(** ** Signal detector: [prepare_data], [detect_signal] *)

(** [df.sort_values(by='timestamp')], as a stable insertion sort. *)
Fixpoint insert_by_time (c : Candle) (l : list Candle) : list Candle :=
  match l with
  | [] => [c]
  | x :: r => if time c <=? time x then c :: l else x :: insert_by_time c r
  end.

Definition sort_values (df : list Candle) : list Candle :=
  fold_right insert_by_time [] df.

(** The value of a column at row [i]; a row the column lacks holds NaN. *)
Definition cell {A : Type} (col : list (option A)) (i : nat) : option A :=
  match nth_error col i with
  | Some (Some x) => Some x
  | _ => None
  end.

(** [col.diff()] at row [i]. *)
Definition diff (col : list (option Z)) (i : nat) : option Z :=
  match i with
  | O => None
  | S j =>
      match cell col i, cell col j with
      | Some a, Some b => Some (a - b)
      | _, _ => None
      end
  end.

(** Row [i] with its derived columns, [None] when one of them is NaN. *)
Definition prepared_row (rsi : list (option Q))
  (supert : list (option Q * option Z)) (i : nat) (c : Candle)
  : option Row :=
  r <-? cell rsi i ;;
  st <-? cell (map fst supert) i ;;
  sd <-? cell (map snd supert) i ;;
  sg <-? diff (map snd supert) i ;;
  Some {| timestamp := time c; open := c_open c; high := c_high c;
          low := c_low c; close := c_close c;
          RSI := r; SUPERT := st; SUPERTd := sd; signal := sg |}.

(** [df.dropna()] followed by [reset_index]: the rows without NaN, in
    order, numbered by their position. *)
Fixpoint dropna (rsi : list (option Q))
  (supert : list (option Q * option Z)) (i : nat) (df : list Candle)
  : list Row :=
  match df with
  | [] => []
  | c :: rest =>
      match prepared_row rsi supert i c with
      | Some row => row :: dropna rsi supert (S i) rest
      | None => dropna rsi supert (S i) rest
      end
  end.

(** [None]: the SuperTrend call returned [None] and subscripting it
    raised. An RSI result [None] makes the whole column NaN. *)
Definition prepare_data (E : Env) (df : list Candle) : option (list Row) :=
  let df := sort_values df in
  let rsi :=
    match ta_rsi E (map c_close df) with
    | Some col => col
    | None => []
    end in
  match ta_supertrend E (map c_high df) (map c_low df) (map c_close df) with
  | None => None
  | Some supert => Some (dropna rsi supert 0 df)
  end.

(** The pair [(decision, df)] is [Some]; [(None, None)] is [None]. *)
Definition detect_signal (df : list Row) (w : World)
  : option (string * list Row) * World :=
  let latest_index := Z.of_nat (List.length df) - 1 in
  if latest_index <? 2 then (None, w)
  else
    match nth_error df (Z.to_nat latest_index) with
    | Some row =>
        if signal row =? 2 then
          (Some ("call", df), emit (Log MsgBuySignal) w)
        else if signal row =? -2 then
          (Some ("put", df), emit (Log MsgSellSignal) w)
        else (None, w)
    | None => (None, w)
    end.

(** ** Trade executor: [perform_trade] *)

Definition perform_trade (E : Env) (amount : Z) (pair action : string)
  (expiration : Z) (w : World) : option (json * string) * World :=
  let result := api_buy E (trace w) amount pair action expiration in
  let w := emit (Buy amount pair action expiration result) w in
  let trade_id := snd result in
  match fst result, trade_id with
  | true, Some id =>
      let w := emit (Sleep (inject_Z expiration)) w in
      let r := api_check_win E (trace w) id in
      (Some r, emit (CheckWin id r) w)
  | _, _ =>
      let w := emit (Log MsgTradeFailed) w in
      let w := emit Disconnect w in
      let w := emit (Sleep 2) w in
      let w := emit Connect w in
      (None, w)
  end.

(** ** Martingale controller: [martingale_strategy] *)

(** The [while] loop and the [if] after it. One unit of [fuel] pays for
    one pass through the body. *)
Fixpoint martingale_loop (fuel : nat) (cfg : Config) (E : Env)
  (pair action : string) (level amount : Z) (result : json * string)
  (w : World) : outcome World :=
  if String.eqb (snd result) "loose" && (level <? MARTINGALE_LEVEL cfg) then
    match fuel with
    | O => Waiting
    | S fuel' =>
        let level := level + 1 in
        let amount := amount * 2 in
        let '(result', w) :=
          perform_trade E amount pair action (expiration cfg) w in
        match result' with
        | None => Returned w
        | Some r => martingale_loop fuel' cfg E pair action level amount r w
        end
    end
  else if negb (String.eqb (snd result) "loose") then
    Returned (emit (Log MsgWin) w)
  else Returned (emit (Log MsgLoss) w).

Definition martingale_strategy (cfg : Config) (E : Env)
  (pair action : string) (df : list Row) (w : World) : outcome World :=
  let w := emit (Log (MsgTradeData (Py.tail 5 df))) w in
  let amount := INITIAL_AMOUNT cfg in
  let level := 1 in
  let '(result, w) := perform_trade E amount pair action (expiration cfg) w in
  match result with
  | None => Returned w
  | Some r =>
      martingale_loop (Z.to_nat (MARTINGALE_LEVEL cfg)) cfg E pair action
                      level amount r w
  end.

(** ** Candle synchroniser *)

(** [x // n] for a float [x] and an integer [n]; [None] is
    [ZeroDivisionError]. *)
Definition floordiv (x : Q) (n : Z) : option Q :=
  if n =? 0 then None else Some (inject_Z (Qfloor (x / inject_Z n))).

(** [((now.timestamp() // period_seconds) + 1) * period_seconds] *)
Definition next_candle (now : Q) (period_seconds : Z) : option Q :=
  q <-? floordiv now period_seconds ;;
  Some ((q + 1) * inject_Z period_seconds)%Q.

(** One unit of [fuel] pays for one [time.sleep(0.1)]. *)
Fixpoint wait_until_next_candle (fuel : nat) (E : Env)
  (period_seconds seconds_before : Z) (w : World) : outcome World :=
  let now := clock E (trace w) in
  let w := emit (Now now) w in
  match next_candle now period_seconds with
  | None => Raised
  | Some nc =>
      if Qle_bool (nc - inject_Z seconds_before) now then Returned w
      else
        match fuel with
        | O => Waiting
        | S fuel' =>
            wait_until_next_candle fuel' E period_seconds seconds_before
                                   (emit (Sleep (1 # 10)) w)
        end
  end.

(** [now.second] and [now.minute] of a UTC timestamp. *)
Definition second_of (now : Q) : Z := Qfloor now mod 60.

Definition minute_of (now : Q) : Z := (Qfloor now / 60) mod 60.

Fixpoint wait_for_candle_start (fuel : nat) (cfg : Config) (E : Env)
  (w : World) : outcome World :=
  let now := clock E (trace w) in
  let w := emit (Now now) w in
  let again :=
    match fuel with
    | O => Waiting
    | S fuel' => wait_for_candle_start fuel' cfg E (emit (Sleep (1 # 10)) w)
    end in
  if second_of now =? 0 then
    if period cfg / 60 =? 0 then Raised
    else if minute_of now mod (period cfg / 60) =? 0 then Returned w
    else again
  else again.

(** ** Cycle orchestrator: [main_trading_loop] *)

(** The request is made with the default granularity [M1] and count 500.
    A response without candles gives a frame without columns, on which
    [df['time']] raises inside the [try] like any other failure. *)
Definition get_oanda_candles (E : Env) (pair : string) (w : World)
  : option (list Candle) * World :=
  let r := oanda_candles E (trace w) pair in
  let w := emit (Candles pair r) w in
  match r with
  | Some (c :: rest) => (Some (c :: rest), w)
  | _ => (None, emit (Log (MsgCandleFetchFailed pair)) w)
  end.

(** The loop [for pair in list(global_value.pairs.keys())]; its result is
    [(selected_pair, selected_action, trade_df)], [None] while the three
    are still [None]. *)
Fixpoint scan_pairs (E : Env) (keys : list string) (w : World)
  : outcome (option (string * string * list Row) * World) :=
  match keys with
  | [] => Returned (None, w)
  | pair_ :: rest =>
      let oanda_pair := Py.slice_to 3 pair_ ++ "_" ++ Py.slice_from 3 pair_ in
      let '(df, w) := get_oanda_candles E oanda_pair w in
      match df with
      | None => scan_pairs E rest (emit (Log (MsgNoData pair_)) w)
      | Some df =>
          match prepare_data E df with
          | None => Raised
          | Some df =>
              let '(found, w) := detect_signal df w in
              match found with
              | Some (decision, signal_df) =>
                  let w := emit (Log (MsgSignalDetected pair_)) w in
                  let w := emit (Log (MsgSelected pair_ decision)) w in
                  Returned (Some (pair_, decision, signal_df), w)
              | None => scan_pairs E rest (emit (Log (MsgNoSignal pair_)) w)
              end
          end
      end
  end.

(** One pass through the body of [while True]. [fuel] bounds the polls of
    each of the two waits. *)
Definition trading_cycle (fuel : nat) (cfg : Config) (E : Env) (w : World)
  : outcome World :=
  let w := emit (Log MsgCycleStart) w in
  let '(ok, w) := get_payout cfg E w in
  if negb ok then
    Returned (emit (Sleep 5) (emit (Log MsgPayoutFailed) w))
  else
    w <- wait_until_next_candle fuel E (period cfg) 15 w ;;
    let w := emit (Log MsgPreClose) w in
    let w := emit (Log (MsgChecking (List.length (pairs w)))) w in
    found <- scan_pairs E (PyDict.keys (pairs w)) w ;;
    let '(selected, w) := found in
    w <- wait_for_candle_start fuel cfg E w ;;
    w <- match selected with
         | Some (selected_pair, selected_action, trade_df) =>
             if negb (String.eqb selected_pair "")
                && negb (String.eqb selected_action "") then
               martingale_strategy cfg E selected_pair selected_action
                 trade_df
                 (emit (Log (MsgExecuting selected_pair selected_action)) w)
             else Returned (emit (Log MsgNoValidSignal) w)
         | None => Returned (emit (Log MsgNoValidSignal) w)
         end ;;
    Returned (emit (Sleep 1) w).

(** The first [cycles] passes of the endless loop. *)
Fixpoint main_trading_loop (cycles fuel : nat) (cfg : Config) (E : Env)
  (w : World) : outcome World :=
  match cycles with
  | O => Returned w
  | S n =>
      w <- trading_cycle fuel cfg E w ;;
      main_trading_loop n fuel cfg E w
  end.

(** ** Vocabulary of the properties *)

(** *** Feed entries *)

(** The four inclusion conditions, read off a feed entry. A field that
    cannot be read, or read as the condition needs, does not satisfy it. *)
Definition named (n : string) (pair : json) : bool :=
  match Py.getitem pair 1 with
  | Some (JStr s) => String.eqb s n
  | _ => false
  end.

Definition not_otc (pair : json) : bool :=
  match Py.getitem pair 1 with
  | Some (JStr s) => negb (Py.str_endswith s "_otc")
  | _ => false
  end.

Definition is_currency (pair : json) : bool :=
  match Py.getitem pair 3 with
  | Some v => Py.eq_str v "currency"
  | None => false
  end.

Definition is_active (pair : json) : bool :=
  match Py.getitem pair 14 with
  | Some v => Py.truthy v
  | None => false
  end.

Definition payout_enough (cfg : Config) (pair : json) : bool :=
  match Py.getitem pair 5 with
  | Some v =>
      match Py.ge_int v (min_payout cfg) with
      | Some b => b
      | None => false
      end
  | None => false
  end.

(** The three conditions of the outer [if] of [get_payout]. *)
Definition passes_gate (pair : json) : bool :=
  not_otc pair && is_currency pair && is_active pair.

(** What [get_payout] stores for an entry. *)
Definition stored (pair : json) : option PairInfo :=
  p <-? Py.getitem pair 5 ;;
  t <-? Py.getitem pair 3 ;;
  Some {| payout := p; type := t |}.

(** The last entry of the feed that carries the name [n] and passes the
    gate. *)
Definition last_gated (n : string) (items : list json) : option json :=
  find (fun e => named n e && passes_gate e) (rev items).

(** A feed entry in the broker's fixed-position layout: name at 1, asset
    class at 3, payout at 5, active flag at 14. *)
Definition feed_entry (name asset_type : string) (payout is_active : json)
  : json :=
  JArr [JNull; JStr name; JNull; JStr asset_type; JNull; payout; JNull;
        JNull; JNull; JNull; JNull; JNull; JNull; JNull; is_active].

(** The items [get_payout] iterates over, when the feed parses and is
    iterable. *)
Definition feed_items (E : Env) (w : World) : option (list json) :=
  d <-? PayoutData E (trace w) ;; Py.iter d.

(** *** Environments for the examples *)

(** An outside that answers nothing useful. *)
Definition silent : Env :=
  {| PayoutData := fun _ => None;
     oanda_candles := fun _ _ => None;
     api_buy := fun _ _ _ _ _ => (false, None);
     api_check_win := fun _ _ => (JNull, "unknown");
     clock := fun _ => 0%Q;
     ta_rsi := fun _ => None;
     ta_supertrend := fun _ _ _ => None |}.

Definition with_feed (feed : option json) (E : Env) : Env :=
  {| PayoutData := fun _ => feed;
     oanda_candles := oanda_candles E;
     api_buy := api_buy E;
     api_check_win := api_check_win E;
     clock := clock E;
     ta_rsi := ta_rsi E;
     ta_supertrend := ta_supertrend E |}.

Definition empty_world : World := {| pairs := []; trace := [] |}.

(** A value [>=] accepts next to an integer. *)
Definition is_number (v : json) : bool :=
  match v with
  | JInt _ | JBool _ | JFloat _ => true
  | _ => false
  end.

(** An entry an iteration of [get_payout] gets through without an
    exception: the four positions exist, the name is a string and, where
    the payout is compared, it is a number. *)
Definition readable (pair : json) : bool :=
  match Py.getitem pair 1, Py.getitem pair 5,
        Py.getitem pair 3, Py.getitem pair 14 with
  | Some (JStr _), Some payout, Some _, Some _ =>
      if passes_gate pair then is_number payout else true
  | _, _, _, _ => false
  end.

(** The entries [get_payout] applies: those before the first one it
    cannot read. *)
Fixpoint applied (items : list json) : list json :=
  match items with
  | [] => []
  | e :: rest => if readable e then e :: applied rest else []
  end.

(** A record of the payout table as the broker lays it out: a list that
    holds a string (the name) at 1, a string (the asset class) at 3, a
    number (the payout) at 5 and a boolean (the active flag) at 14. *)
Definition in_layout (pair : json) : bool :=
  match pair with
  | JArr l =>
      match nth_error l 1, nth_error l 3, nth_error l 5, nth_error l 14 with
      | Some (JStr _), Some (JStr _), Some (JInt _ | JFloat _),
        Some (JBool _) => true
      | _, _, _, _ => false
      end
  | _ => false
  end.

(** A feed in the layout: a text that parses to a list of such records.
    Every other feed is malformed or unparseable. *)
Definition feed_in_layout (feed : option json) : bool :=
  match feed with
  | Some (JArr items) => forallb in_layout items
  | _ => false
  end.

(** *** Example feeds *)

Definition eurusd_75 : json :=
  feed_entry "EURUSD" "currency" (JInt 75) (JBool true).

Definition eurusd_inactive : json :=
  feed_entry "EURUSD" "currency" (JInt 75) (JBool false).

Definition eurusd_50 : json :=
  feed_entry "EURUSD" "currency" (JInt 50) (JBool true).


Definition holds_eurusd : World :=
  {| pairs := [("EURUSD", {| payout := JInt 75; type := JStr "currency" |})];
     trace := [] |}.

(** *** Martingale ladders *)

(** The outcome an order settled with: the status of the first
    [check_win] answer after it, [None] when the next order (or the end)
    comes first, that is, when the order was not placed. *)
Fixpoint settled (tr : list Event) : option string :=
  match tr with
  | [] => None
  | CheckWin _ r :: _ => Some (snd r)
  | Buy _ _ _ _ _ :: _ => None
  | _ :: rest => settled rest
  end.

(** The trade attempts of a stretch of history, in order: the stake
    handed to the broker and what the attempt gave. *)
Fixpoint attempts (tr : list Event) : list (Z * option string) :=
  match tr with
  | [] => []
  | Buy amount _ _ _ _ :: rest => (amount, settled rest) :: attempts rest
  | _ :: rest => attempts rest
  end.

(** The orders of a stretch of history: stake, instrument, action and
    expiry. *)
Fixpoint orders (tr : list Event) : list (Z * string * string * Z) :=
  match tr with
  | [] => []
  | Buy amount active action expirations _ :: rest =>
      (amount, active, action, expirations) :: orders rest
  | _ :: rest => orders rest
  end.

(** How a ladder ended. *)
Inductive LadderState : Type :=
| Won
| Lost
| Aborted.

(** The end of the ladder whose history is [tr]: it closes with the WIN
    line, with the LOSS line, or with neither (it returned early). *)
Definition final_state (tr : list Event) : LadderState :=
  match last tr Connect with
  | Log MsgWin => Won
  | Log MsgLoss => Lost
  | _ => Aborted
  end.

(** The state machine of the specification, run over the results of the
    successive attempts ([None]: the executor returned null). It yields
    the stakes it attempts and the terminal state it reaches, [None] for
    the state while the ladder is still active. In state [Active level]
    with [stake]: a null result aborts; a result other than a loss wins; a
    loss below the level cap raises the level, doubles the stake and
    tries again; a loss at the cap loses. *)
Fixpoint spec_ladder (cap level stake : Z) (results : list (option string))
  : list Z * option LadderState :=
  match results with
  | [] => ([], None)
  | None :: _ => ([stake], Some Aborted)
  | Some result :: rest =>
      if negb (String.eqb result "loose") then ([stake], Some Won)
      else if level <? cap then
        let '(stakes, final) := spec_ladder cap (level + 1) (stake * 2) rest in
        (stake :: stakes, final)
      else ([stake], Some Lost)
  end.

Definition is_buy (e : Event) : bool :=
  match e with
  | Buy _ _ _ _ _ => true
  | _ => false
  end.

(** A broker that follows a script: the [k]-th order is refused when the
    [k]-th entry is [None] (or missing) and is otherwise placed and settles
    with the status the entry gives. *)
Definition scripted (script : list (option string)) : Env :=
  {| PayoutData := fun _ => None;
     oanda_candles := fun _ _ => None;
     api_buy := fun h _ _ _ _ =>
       match nth_error script (List.length (filter is_buy h)) with
       | Some (Some _) => (true, Some "trade")
       | _ => (false, None)
       end;
     api_check_win := fun h _ =>
       match nth_error script (List.length (filter is_buy h) - 1) with
       | Some (Some status) => (JNull, status)
       | _ => (JNull, "unknown")
       end;
     clock := fun _ => 0%Q;
     ta_rsi := fun _ => None;
     ta_supertrend := fun _ _ _ => None |}.

(** The events a ladder adds to the history of [w]. *)
Definition ladder_events (cfg : Config) (E : Env) (pair action : string)
  (df : list Row) (w : World) : list Event :=
  match martingale_strategy cfg E pair action df w with
  | Returned w' => skipn (List.length (trace w)) (trace w')
  | _ => []
  end.

(** *** Signals *)

(** The last row of a frame. *)
Definition last_row (df : list Row) : option Row :=
  match rev df with
  | row :: _ => Some row
  | [] => None
  end.

(** The action of what [detect_signal] returned, [None] for no signal. *)
Definition action_of (found : option (string * list Row)) : option string :=
  option_map fst found.

(** An indicator library that reports the trend directions [dirs], row by
    row, and a constant RSI and band. *)
Definition indicators (dirs : list Z) : Env :=
  {| PayoutData := fun _ => None;
     oanda_candles := fun _ _ => None;
     api_buy := fun _ _ _ _ _ => (false, None);
     api_check_win := fun _ _ => (JNull, "unknown");
     clock := fun _ => 0%Q;
     ta_rsi := fun closes => Some (map (fun _ => Some 50%Q) closes);
     ta_supertrend := fun _ _ _ =>
       Some (map (fun d => (Some 1%Q, Some d)) dirs) |}.

Definition candle_at (t : Z) : Candle :=
  {| time := t; c_open := 1; c_high := 1; c_low := 1; c_close := 1 |}.

(** Four candles whose trend directions end with -1, -1, +1. *)
Definition reversal_up : option (list Row) :=
  prepare_data (indicators [-1; -1; -1; 1])
               [candle_at 60; candle_at 120; candle_at 180; candle_at 240].

(** *** Waiting for the pre-close window *)

(** The condition under which [wait_until_next_candle] leaves its loop at
    a clock reading [now]. *)
Definition released (period_seconds seconds_before : Z) (now : Q) : bool :=
  match next_candle now period_seconds with
  | Some nc => Qle_bool (nc - inject_Z seconds_before) now
  | None => false
  end.

(** The clock readings of [n] successive polls that start from the
    history [tr], each followed by the tenth of a second of sleep. *)
Fixpoint readings (n : nat) (E : Env) (tr : list Event) : list Q :=
  match n with
  | O => []
  | S n' =>
      let t := clock E tr in
      t :: readings n' E (tr ++ [Now t; Sleep (1 # 10)])
  end.

(** The events of polls that did not release. *)
Definition polls (ts : list Q) : list Event :=
  flat_map (fun t => [Now t; Sleep (1 # 10)]) ts.

(** The first reading that releases, with the readings before it. *)
Fixpoint first_released (period_seconds seconds_before : Z) (ts : list Q)
  : option (list Q * Q) :=
  match ts with
  | [] => None
  | t :: rest =>
      if released period_seconds seconds_before t then Some ([], t)
      else
        match first_released period_seconds seconds_before rest with
        | Some (before, x) => Some (t :: before, x)
        | None => None
        end
  end.

(** A clock that stands still at [t]. *)
Definition clock_at (t : Q) : Env :=
  {| PayoutData := fun _ => None;
     oanda_candles := fun _ _ => None;
     api_buy := fun _ _ _ _ _ => (false, None);
     api_check_win := fun _ _ => (JNull, "unknown");
     clock := fun _ => t;
     ta_rsi := fun _ => None;
     ta_supertrend := fun _ _ _ => None |}.

(** A clock that starts at [t] and advances by [step] with every event. *)
Definition ticking (t step : Q) : Env :=
  {| PayoutData := fun _ => None;
     oanda_candles := fun _ _ => None;
     api_buy := fun _ _ _ _ _ => (false, None);
     api_check_win := fun _ _ => (JNull, "unknown");
     clock := fun h => (t + inject_Z (Z.of_nat (List.length h)) * step)%Q;
     ta_rsi := fun _ => None;
     ta_supertrend := fun _ _ _ => None |}.

(** *** Scanning the eligible instruments *)

(** The provider's name of an instrument: [pair[:3] + "_" + pair[3:]]. *)
Definition oanda_name (pair : string) : string :=
  Py.slice_to 3 pair ++ "_" ++ Py.slice_from 3 pair.

(** The candle requests of a stretch of history, with their answers. *)
Definition fetches (tr : list Event)
  : list (string * option (list Candle)) :=
  flat_map (fun e => match e with
                     | Candles instrument reply => [(instrument, reply)]
                     | _ => []
                     end) tr.

(** The instruments a stretch of history selected, with the action. *)
Definition selections (tr : list Event) : list (string * string) :=
  flat_map (fun e => match e with
                     | Log (MsgSelected name decision) => [(name, decision)]
                     | _ => []
                     end) tr.

(** The number of ladders a stretch of history started: each call of
    [martingale_strategy] opens with the trade-data line. *)
Definition ladders (tr : list Event) : nat :=
  List.length (filter (fun e => match e with
                                | Log (MsgTradeData _) => true
                                | _ => false
                                end) tr).

(** The signal that comes out of the answer to a candle request: none
    when the request failed or brought no candles. *)
Definition signal_of (E : Env) (reply : option (list Candle))
  : option (string * list Row) :=
  match reply with
  | Some (c :: rest) =>
      match prepare_data E (c :: rest) with
      | Some df => fst (detect_signal df empty_world)
      | None => None
      end
  | _ => None
  end.

(** Events that are no candle request, no selection, no start of a
    ladder and no order. *)
Definition is_quiet (e : Event) : bool :=
  match e with
  | Candles _ _ | Buy _ _ _ _ _ | Log (MsgSelected _ _)
  | Log (MsgTradeData _) => false
  | _ => true
  end.

(** Events of [perform_trade] and of the lines that close a ladder. *)
Definition is_executor_event (e : Event) : bool :=
  match e with
  | Buy _ _ _ _ _ | CheckWin _ _ | Sleep _ | Connect | Disconnect
  | Log MsgTradeFailed | Log MsgWin | Log MsgLoss => true
  | _ => false
  end.

(** A provider that serves the candles of [reversal_up] for the
    instruments in [with_signal] and flat candles for the others, next to
    a feed [feed], a clock that reads [t] until the pre-close line is
    logged and [t + 10] from then on, and a broker that follows
    [script]. *)
Definition market (feed : json) (with_signal : list string) (t : Q)
  (script : list (option string)) : Env :=
  {| PayoutData := fun _ => Some feed;
     oanda_candles := fun _ instrument =>
       if existsb (String.eqb instrument) with_signal then
         Some [candle_at 60; candle_at 120; candle_at 180; candle_at 240]
       else Some [candle_at 60; candle_at 120; candle_at 180];
     api_buy := api_buy (scripted script);
     api_check_win := api_check_win (scripted script);
     clock := fun h =>
       if existsb (fun e => match e with
                            | Log MsgPreClose => true
                            | _ => false
                            end) h
       then (t + 10)%Q else t;
     ta_rsi := fun closes => Some (map (fun _ => Some 50%Q) closes);
     ta_supertrend := fun _ _ closes =>
       Some (firstn (List.length closes)
               [(Some 1%Q, Some (-1)); (Some 1%Q, Some (-1));
                (Some 1%Q, Some (-1)); (Some 1%Q, Some 1)]) |}.

Definition three_pairs : json :=
  JArr [feed_entry "EURUSD" "currency" (JInt 75) (JBool true);
        feed_entry "GBPUSD" "currency" (JInt 80) (JBool true);
        feed_entry "USDJPY" "currency" (JInt 90) (JBool true)].

(** A cycle over three eligible instruments of which the second and the
    third carry a signal. *)
Definition cycle_example : outcome World :=
  trading_cycle 3 bot_settings
    (market three_pairs ["GBP_USD"; "USD_JPY"] 3650 [Some "win"])
    empty_world.

Definition world_of (o : outcome World) : World :=
  match o with
  | Returned w => w
  | _ => empty_world
  end.

(** *** Further vocabulary *)

(** A record as [get_payout] writes it: the name is no over-the-counter
    variant, the type is ["currency"] and the payout is a number that
    reaches the minimum. *)
Definition eligible_record (cfg : Config) (kv : string * PairInfo) : bool :=
  negb (Py.str_endswith (fst kv) "_otc")
  && Py.eq_str (type (snd kv)) "currency"
  && match Py.ge_int (payout (snd kv)) (min_payout cfg) with
     | Some b => b
     | None => false
     end.

(** A list of timestamps that never decreases. *)
Fixpoint ascending (l : list Z) : bool :=
  match l with
  | [] => true
  | x :: rest =>
      match rest with
      | [] => true
      | y :: _ => (x <=? y) && ascending rest
      end
  end.

(** The candle a prepared row was made from. *)
Definition candle_of (row : Row) : Candle :=
  {| time := timestamp row; c_open := open row; c_high := high row;
     c_low := low row; c_close := close row |}.

(** A trend direction as SuperTrend reports it: up, down, or NaN. *)
Definition is_direction (d : option Z) : bool :=
  match d with
  | Some z => (z =? 1) || (z =? -1)
  | None => true
  end.

(** An indicator library whose RSI returns [None] (too short a series for
    its look-back) while SuperTrend reports the directions [dirs]. *)
Definition without_rsi (dirs : list Z) : Env :=
  {| PayoutData := fun _ => None;
     oanda_candles := fun _ _ => None;
     api_buy := fun _ _ _ _ _ => (false, None);
     api_check_win := fun _ _ => (JNull, "unknown");
     clock := fun _ => 0%Q;
     ta_rsi := fun _ => None;
     ta_supertrend := fun _ _ _ =>
       Some (map (fun d => (Some 1%Q, Some d)) dirs) |}.

(** A provider that serves three candles for every instrument, with an
    indicator library whose SuperTrend returns [None]. *)
Definition without_supertrend : Env :=
  {| PayoutData := fun _ => None;
     oanda_candles := fun _ _ =>
       Some [candle_at 60; candle_at 120; candle_at 180];
     api_buy := fun _ _ _ _ _ => (false, None);
     api_check_win := fun _ _ => (JNull, "unknown");
     clock := fun _ => 0%Q;
     ta_rsi := fun _ => None;
     ta_supertrend := fun _ _ _ => None |}.

(** The same, except that the provider has no candles for EUR_USD. *)
Definition eur_usd_missing : Env :=
  {| PayoutData := fun _ => None;
     oanda_candles := fun _ instrument =>
       if String.eqb instrument "EUR_USD" then None
       else Some [candle_at 60; candle_at 120; candle_at 180];
     api_buy := fun _ _ _ _ _ => (false, None);
     api_check_win := fun _ _ => (JNull, "unknown");
     clock := fun _ => 0%Q;
     ta_rsi := fun _ => None;
     ta_supertrend := fun _ _ _ => None |}.

(** The histories a ladder can write after its opening line, when its
    next order stakes [amount]: an order the broker refuses, followed by
    the reset of the connection, ends it; an order that is placed is
    followed by the sleep of the expiry and the query for the very trade
    the order returned; a result other than ['loose'] is followed by the
    WIN line, a result ['loose'] by the LOSS line or by the next order at
    twice the stake. *)
Inductive ladder_trace (cfg : Config) (pair action : string)
  : Z -> list Event -> Prop :=
| ladder_refused amount reply :
    fst reply = false \/ snd reply = None ->
    ladder_trace cfg pair action amount
      [Buy amount pair action (expiration cfg) reply;
       Log MsgTradeFailed; Disconnect; Sleep 2; Connect]
| ladder_won amount id r :
    snd r <> "loose" ->
    ladder_trace cfg pair action amount
      [Buy amount pair action (expiration cfg) (true, Some id);
       Sleep (inject_Z (expiration cfg)); CheckWin id r; Log MsgWin]
| ladder_lost amount id r :
    snd r = "loose" ->
    ladder_trace cfg pair action amount
      [Buy amount pair action (expiration cfg) (true, Some id);
       Sleep (inject_Z (expiration cfg)); CheckWin id r; Log MsgLoss]
| ladder_next amount id r rest :
    snd r = "loose" ->
    ladder_trace cfg pair action (amount * 2) rest ->
    ladder_trace cfg pair action amount
      (Buy amount pair action (expiration cfg) (true, Some id)
       :: Sleep (inject_Z (expiration cfg)) :: CheckWin id r :: rest).

(** The number of times a stretch of history drops the connection, and
    the number of times it opens it. *)
Definition disconnects (tr : list Event) : nat :=
  List.length (filter (fun e => match e with
                                | Disconnect => true
                                | _ => false
                                end) tr).

Definition connects (tr : list Event) : nat :=
  List.length (filter (fun e => match e with
                                | Connect => true
                                | _ => false
                                end) tr).

(** The sum of a list of stakes. *)
Definition total (stakes : list Z) : Z := fold_right Z.add 0 stakes.

(** The terminal state the result of the last attempt stands for. *)
Definition state_of_result (result : option string) : LadderState :=
  match result with
  | None => Aborted
  | Some status => if String.eqb status "loose" then Lost else Won
  end.

(** The settings of the module with a level cap of zero. *)
Definition no_levels : Config :=
  {| min_payout := 60;
     period := 60;
     expiration := 60;
     INITIAL_AMOUNT := 1;
     MARTINGALE_LEVEL := 0 |}.

(** The condition under which [wait_for_candle_start] leaves its loop at
    a clock reading [now], for a period of at least a minute. *)
Definition at_candle_start (cfg : Config) (now : Q) : bool :=
  (second_of now =? 0) && (minute_of now mod (period cfg / 60) =? 0).

(** The first reading that satisfies [ok], with the readings before it. *)
Fixpoint first_reading (ok : Q -> bool) (ts : list Q)
  : option (list Q * Q) :=
  match ts with
  | [] => None
  | t :: rest =>
      if ok t then Some ([], t)
      else
        match first_reading ok rest with
        | Some (before, x) => Some (t :: before, x)
        | None => None
        end
  end.

(** The settings of the module with a candle period of [p] seconds. *)
Definition with_period (p : Z) : Config :=
  {| min_payout := 60;
     period := p;
     expiration := 60;
     INITIAL_AMOUNT := 1;
     MARTINGALE_LEVEL := 3 |}.

(** The instrument of an order. *)
Definition order_pair (o : Z * string * string * Z) : string :=
  snd (fst (fst o)).

(** The number of events of a stretch of history that satisfy [f]. *)
Definition count_events (f : Event -> bool) (tr : list Event) : nat :=
  List.length (filter f tr).

(** The [market] with a clock that lets cycle after cycle through: in the
    [k]-th cycle it reads ten seconds before the end of the [k]-th minute
    after the hour until the pre-close line is logged, and the end of that
    minute from then on. *)
Definition open_market (feed : json) (with_signal : list string)
  (script : list (option string)) : Env :=
  {| PayoutData := fun _ => Some feed;
     oanda_candles := oanda_candles (market feed with_signal 0 script);
     api_buy := api_buy (scripted script);
     api_check_win := api_check_win (scripted script);
     clock := fun h =>
       let starts :=
         count_events (fun e => match e with
                                | Log MsgCycleStart => true
                                | _ => false
                                end) h in
       let closes :=
         count_events (fun e => match e with
                                | Log MsgPreClose => true
                                | _ => false
                                end) h in
       if (closes <? starts)%nat then
         inject_Z (3650 + 60 * Z.of_nat closes)
       else inject_Z (3600 + 60 * Z.of_nat closes);
     ta_rsi := ta_rsi (market feed with_signal 0 script);
     ta_supertrend := ta_supertrend (market feed with_signal 0 script) |}.

(** Two cycles over three eligible instruments; the second instrument
    carries a signal, the first ladder loses twice and then wins, the
    second wins at once. *)
Definition two_cycles : outcome World :=
  main_trading_loop 2 3 bot_settings
    (open_market three_pairs ["GBP_USD"]
       [Some "loose"; Some "loose"; Some "win"; Some "win"])
    empty_world.

(** The seconds a stretch of history spends in [time.sleep]. *)
Definition slept (tr : list Event) : Q :=
  fold_right (fun e acc => match e with
                           | Sleep s => (s + acc)%Q
                           | _ => acc
                           end) 0%Q tr.

Definition is_check_win (e : Event) : bool :=
  match e with
  | CheckWin _ _ => true
  | _ => false
  end.

(** * Properties *)

(** ** Dictionaries *)

Module PyDictFacts.
Section Facts.

Context {V : Type}.
Implicit Types (d : list (string * V)) (k : string) (v : V).

Lemma get_set_eq k v d : PyDict.get k (PyDict.set k v d) = Some v.
Proof.
  induction d as [|[k' v'] r IH]; simpl.
  - now rewrite String.eqb_refl.
  - destruct (String.eqb k k') eqn:Ek; simpl.
    + now rewrite String.eqb_refl.
    + now rewrite Ek.
Qed.

Lemma get_set_ne k k' v d :
  k <> k' -> PyDict.get k' (PyDict.set k v d) = PyDict.get k' d.
Proof.
  intros Hne. induction d as [|[k0 v0] r IH]; simpl.
  - destruct (String.eqb_spec k' k); congruence.
  - destruct (String.eqb_spec k k0) as [->|Hk]; simpl.
    + destruct (String.eqb_spec k' k0); congruence.
    + destruct (String.eqb_spec k' k0); congruence.
Qed.

Lemma get_del_eq k d : PyDict.get k (PyDict.del k d) = None.
Proof.
  induction d as [|[k0 v0] r IH]; simpl; [reflexivity|].
  destruct (String.eqb k k0) eqn:Ek; simpl; [assumption|].
  now rewrite Ek.
Qed.

Lemma get_del_ne k k' d :
  k <> k' -> PyDict.get k' (PyDict.del k d) = PyDict.get k' d.
Proof.
  intros Hne. induction d as [|[k0 v0] r IH]; simpl; [reflexivity|].
  destruct (String.eqb_spec k k0) as [->|Hk]; simpl.
  - destruct (String.eqb_spec k' k0); congruence.
  - destruct (String.eqb_spec k' k0); congruence.
Qed.

Lemma get_None_keys k d : PyDict.get k d = None <-> ~ In k (PyDict.keys d).
Proof.
  induction d as [|[k0 v0] r IH]; simpl.
  - tauto.
  - destruct (String.eqb_spec k k0) as [->|Hk].
    + split; [discriminate | tauto].
    + rewrite IH. split; intros H; [intros [?|?]; congruence | tauto].
Qed.

(** Assignment and deletion keep the keys distinct, and an assignment to
    a key already present keeps the order of the keys. *)
Lemma keys_set_NoDup k v d :
  NoDup (PyDict.keys d) -> NoDup (PyDict.keys (PyDict.set k v d)).
Proof.
  induction d as [|[k0 v0] r IH]; simpl; intros Hd.
  - constructor; [tauto | constructor].
  - inversion Hd as [|? ? Hnin Hr]; subst.
    destruct (String.eqb_spec k k0) as [->|Hk]; simpl.
    + now constructor.
    + constructor; [|now apply IH].
      apply get_None_keys. rewrite get_set_ne by congruence.
      now apply get_None_keys.
Qed.

Lemma keys_del_NoDup k d :
  NoDup (PyDict.keys d) -> NoDup (PyDict.keys (PyDict.del k d)).
Proof.
  induction d as [|[k0 v0] r IH]; simpl; intros Hd; [constructor|].
  inversion Hd as [|? ? Hnin Hr]; subst.
  destruct (String.eqb_spec k k0) as [->|Hk]; simpl; [now apply IH|].
  constructor; [|now apply IH].
  apply get_None_keys. rewrite get_del_ne by congruence.
  now apply get_None_keys.
Qed.

Lemma keys_set_present k v d :
  PyDict.get k d <> None -> PyDict.keys (PyDict.set k v d) = PyDict.keys d.
Proof.
  induction d as [|[k0 v0] r IH]; simpl; intros Hin; [congruence|].
  destruct (String.eqb_spec k k0) as [->|Hk]; simpl; [reflexivity|].
  now rewrite IH.
Qed.

Lemma keys_set_absent k v d :
  PyDict.get k d = None ->
  PyDict.keys (PyDict.set k v d) = (PyDict.keys d ++ [k])%list.
Proof.
  induction d as [|[k0 v0] r IH]; simpl; intros Hin; [reflexivity|].
  destruct (String.eqb_spec k k0) as [->|Hk]; simpl; [discriminate|].
  now rewrite IH.
Qed.

End Facts.
End PyDictFacts.

(** ** Eligibility filter *)

Section Eligibility.

Variable cfg : Config.
Implicit Types (p : list (string * PairInfo)) (e : json) (n : string).

(** What one iteration does to the entry of any name [n]. *)
Lemma get_payout_body_get e p p' n :
  get_payout_body cfg e p = Some p' ->
  PyDict.get n p' =
    if named n e && passes_gate e then
      if payout_enough cfg e then stored e else None
    else PyDict.get n p.
Proof.
  unfold get_payout_body, named, passes_gate, not_otc, is_currency,
    is_active, payout_enough, stored, obind.
  destruct (Py.getitem e 1) as [name|]; [|discriminate].
  destruct (Py.getitem e 5) as [pay|]; [|discriminate].
  destruct (Py.getitem e 3) as [ty|]; [|discriminate].
  destruct (Py.getitem e 14) as [act|]; [|discriminate].
  destruct name as [| | | |s| |]; simpl; try discriminate.
  destruct (negb (Py.str_endswith s "_otc") && Py.eq_str ty "currency"
            && Py.truthy act) eqn:Hg.
  - destruct (Py.ge_int pay (min_payout cfg)) as [[|]|]; [| |discriminate].
    + intros [= <-]. destruct (String.eqb_spec s n) as [->|Hn]; simpl.
      * apply PyDictFacts.get_set_eq.
      * now apply PyDictFacts.get_set_ne.
    + unfold PyDict.mem. destruct (PyDict.get s p) eqn:Hs; intros [= <-].
      * destruct (String.eqb_spec s n) as [->|Hn]; simpl.
        -- apply PyDictFacts.get_del_eq.
        -- now apply PyDictFacts.get_del_ne.
      * destruct (String.eqb_spec s n) as [->|Hn]; simpl; congruence.
  - intros [= <-]. now rewrite andb_false_r.
Qed.

(** An entry that fails the gate leaves the dictionary as it is. *)
Lemma get_payout_body_gate e p p' :
  passes_gate e = false -> get_payout_body cfg e p = Some p' -> p' = p.
Proof.
  unfold get_payout_body, passes_gate, not_otc, is_currency, is_active,
    obind.
  destruct (Py.getitem e 1) as [name|]; [|discriminate 2].
  destruct (Py.getitem e 5) as [pay|]; [|discriminate 2].
  destruct (Py.getitem e 3) as [ty|]; [|discriminate 2].
  destruct (Py.getitem e 14) as [act|]; [|discriminate 2].
  destruct name as [| | | |s| |]; simpl; try discriminate 2.
  intros ->. now intros [= <-].
Qed.

(** Whether an iteration raises depends on the entry alone. *)
Lemma get_payout_body_raises e p q :
  get_payout_body cfg e p = None -> get_payout_body cfg e q = None.
Proof.
  unfold get_payout_body, obind.
  destruct (Py.getitem e 1) as [name|]; [|reflexivity].
  destruct (Py.getitem e 5) as [pay|]; [|reflexivity].
  destruct (Py.getitem e 3) as [ty|]; [|reflexivity].
  destruct (Py.getitem e 14) as [act|]; [|reflexivity].
  destruct (Py.endswith name "_otc") as [otc|]; [|reflexivity].
  destruct (negb otc && Py.eq_str ty "currency" && Py.truthy act);
    [|discriminate].
  destruct (Py.ge_int pay (min_payout cfg)) as [[|]|]; [| |reflexivity].
  - destruct name; (discriminate || reflexivity).
  - destruct name; try reflexivity.
    destruct (PyDict.mem s p); discriminate.
Qed.

Lemma find_snoc {A : Type} (f : A -> bool) (l : list A) (x : A) :
  find f (l ++ [x]) =
    match find f l with
    | Some y => Some y
    | None => if f x then Some x else None
    end.
Proof.
  induction l as [|a l IH]; simpl; [reflexivity|].
  destruct (f a); [reflexivity | exact IH].
Qed.

(** After a run to the end, the entry of [n] is decided by the last feed
    entry for [n] that passes the gate, and is the old one without such. *)
Lemma get_payout_loop_get items p p' n :
  get_payout_loop cfg items p = (true, p') ->
  PyDict.get n p' =
    match last_gated n items with
    | Some e => if payout_enough cfg e then stored e else None
    | None => PyDict.get n p
    end.
Proof.
  unfold last_gated. revert p.
  induction items as [|e rest IH]; intros p; simpl.
  - now intros [= <-].
  - destruct (get_payout_body cfg e p) as [p1|] eqn:Hb; [|discriminate].
    intros Hl. rewrite (IH _ Hl), find_snoc.
    destruct (find _ (rev rest)); [reflexivity|].
    rewrite (get_payout_body_get _ _ _ n Hb).
    now destruct (named n e && passes_gate e).
Qed.

(** A failed run stopped at the first entry that raises; the entries
    before it were applied. *)
Lemma get_payout_loop_false items p p' :
  get_payout_loop cfg items p = (false, p') ->
  exists pre bad post,
    items = (pre ++ bad :: post)%list
    /\ get_payout_loop cfg pre p = (true, p')
    /\ get_payout_body cfg bad p' = None.
Proof.
  revert p. induction items as [|e rest IH]; intros p; simpl.
  - discriminate.
  - destruct (get_payout_body cfg e p) as [p1|] eqn:Hb.
    + intros Hl. destruct (IH _ Hl) as (pre & bad & post & -> & Hpre & Hbad).
      exists (e :: pre), bad, post. simpl. now rewrite Hb.
    + intros [= <-]. now exists [], e, rest.
Qed.

Lemma get_payout_loop_app pre rest p p1 :
  get_payout_loop cfg pre p = (true, p1) ->
  get_payout_loop cfg (pre ++ rest) p = get_payout_loop cfg rest p1.
Proof.
  revert p. induction pre as [|e pre IH]; intros p; simpl.
  - now intros [= <-].
  - destruct (get_payout_body cfg e p); [apply IH | discriminate].
Qed.

(** A name leaves the dictionary only through a gate-passing entry of
    that name with too small a payout. *)
Lemma get_payout_loop_removed items p ok p' n :
  get_payout_loop cfg items p = (ok, p') ->
  PyDict.get n p <> None -> PyDict.get n p' = None ->
  exists e, In e items /\ named n e = true /\ passes_gate e = true
            /\ payout_enough cfg e = false.
Proof.
  revert p. induction items as [|e rest IH]; intros p; simpl.
  - intros [= _ <-]. congruence.
  - destruct (get_payout_body cfg e p) as [p1|] eqn:Hb;
      [|intros [= _ <-]; congruence].
    intros Hl Hin Hout.
    destruct (PyDict.get n p1) eqn:H1.
    + destruct (IH _ Hl) as (x & Hx & Hrest); [congruence | assumption |].
      exists x. tauto.
    + exists e. rewrite (get_payout_body_get _ _ _ n Hb) in H1.
      destruct (named n e && passes_gate e) eqn:Hg; [|congruence].
      apply andb_prop in Hg. destruct Hg as [Hn Hg].
      destruct (payout_enough cfg e) eqn:Hp; [|tauto].
      exfalso. revert Hp Hg H1.
      unfold payout_enough, passes_gate, is_currency, stored, obind.
      destruct (Py.getitem e 5); [|discriminate 1].
      destruct (Py.getitem e 3); [discriminate 3|].
      now rewrite andb_false_r.
Qed.

End Eligibility.

Section Readable.

Variable cfg : Config.

(** An iteration raises exactly on the entries that are not readable. *)
Lemma get_payout_body_readable e p :
  get_payout_body cfg e p = None <-> readable e = false.
Proof.
  unfold get_payout_body, readable, passes_gate, not_otc, is_currency,
    is_active, obind.
  destruct (Py.getitem e 1) as [name|]; [|tauto].
  destruct (Py.getitem e 5) as [pay|]; [|destruct name; tauto].
  destruct (Py.getitem e 3) as [ty|]; [|destruct name; tauto].
  destruct (Py.getitem e 14) as [act|]; [|destruct name; tauto].
  destruct name as [| | | |s| |]; simpl; try tauto.
  destruct (negb (Py.str_endswith s "_otc") && Py.eq_str ty "currency"
            && Py.truthy act); [|split; discriminate].
  destruct pay as [|b|z|[|neg|q]|t|l|l]; simpl; try tauto;
    repeat match goal with
           | |- context [if ?c then _ else _] => destruct c
           end; split; discriminate.
Qed.

Lemma get_payout_loop_readable items p :
  forallb readable items = true ->
  fst (get_payout_loop cfg items p) = true.
Proof.
  revert p. induction items as [|e rest IH]; intros p; simpl;
    [reflexivity|].
  intros Hw. apply andb_prop in Hw. destruct Hw as [He Hrest].
  destruct (get_payout_body cfg e p) as [p1|] eqn:Hb; [now apply IH|].
  apply get_payout_body_readable in Hb. congruence.
Qed.

(** The loop applies the entries before the first one it cannot read, in
    a run that reaches their end, and reports whether there was none. *)
Lemma get_payout_loop_applied items : forall p,
  get_payout_loop cfg items p
  = (forallb readable items, snd (get_payout_loop cfg (applied items) p))
  /\ fst (get_payout_loop cfg (applied items) p) = true.
Proof.
  induction items as [|e rest IH]; intros p; simpl; [now split|].
  destruct (readable e) eqn:He; simpl.
  - destruct (get_payout_body cfg e p) as [p1|] eqn:Hb; [apply IH|].
    apply get_payout_body_readable in Hb. congruence.
  - rewrite (proj2 (get_payout_body_readable e p) He). now split.
Qed.

(** Entries that fail the gate leave the dictionary as it is. *)
Lemma get_payout_loop_ungated items : forall p,
  (forall e, In e items -> passes_gate e = false) ->
  snd (get_payout_loop cfg items p) = p.
Proof.
  induction items as [|e rest IH]; intros p Hall; simpl; [reflexivity|].
  destruct (get_payout_body cfg e p) as [p1|] eqn:Hb; [|reflexivity].
  rewrite (get_payout_body_gate cfg e p p1 (Hall e (or_introl eq_refl)) Hb).
  apply IH. intros x Hx. apply Hall. now right.
Qed.


End Readable.



Lemma applied_all items :
  forallb readable items = true -> applied items = items.
Proof.
  induction items as [|e rest IH]; simpl; [reflexivity|].
  intros H. apply andb_prop in H. destruct H as [He Hrest].
  now rewrite He, IH.
Qed.


(** What a call of [get_payout] returns and leaves behind, by the feed. *)
Lemma get_payout_result cfg E w :
  fst (get_payout cfg E w)
  = match feed_items E w with
    | Some items => forallb readable items
    | None => false
    end
  /\ pairs (snd (get_payout cfg E w))
     = snd (get_payout_loop cfg
              (applied match feed_items E w with
                       | Some items => items
                       | None => []
                       end)
              (pairs w)).
Proof.
  unfold get_payout, feed_items.
  destruct (d <-? PayoutData E (trace w);; Py.iter d) as [items|];
    [|now split].
  destruct (get_payout_loop_applied cfg items (pairs w)) as [-> _].
  now destruct (forallb readable items).
Qed.

(** Over a feed whose entries are all readable [get_payout] returns true
    and, for every instrument name [n]: the last entry named [n] that
    passes the name, asset-class and active checks decides -- [n] is in
    the eligible set with that entry's payout and type when the payout
    reaches the minimum and is absent when it does not; without such an
    entry the loop leaves [n] as it finds it. *)
Lemma get_payout_eligible_set cfg E w items n :
  feed_items E w = Some items ->
  forallb readable items = true ->
  fst (get_payout cfg E w) = true
  /\ PyDict.get n (pairs (snd (get_payout cfg E w))) =
       match last_gated n items with
       | Some e => if payout_enough cfg e then stored e else None
       | None => PyDict.get n (pairs w)
       end.
Proof.
  intros Hfeed Hwf.
  destruct (get_payout_result cfg E w) as [Hfst Hsnd].
  rewrite Hfeed in Hfst, Hsnd. rewrite Hwf in Hfst.
  rewrite (applied_all items Hwf) in Hsnd.
  split; [exact Hfst|]. rewrite Hsnd.
  pose proof (get_payout_loop_readable cfg items (pairs w) Hwf) as Hok.
  destruct (get_payout_loop cfg items (pairs w)) as [ok p'] eqn:Hl.
  simpl in Hok. subst ok. now apply (get_payout_loop_get cfg items (pairs w)).
Qed.

(** C1. The removal the claim states is missing where the active flag is
    false. EURUSD is in the eligible set and the feed, in the layout,
    holds one entry, which reports EURUSD inactive: [get_payout] returns
    true and EURUSD is still in the set. The same entry with the flag
    true and a payout below the minimum does remove it: the [del] exists
    and is reached only behind the name, asset-class and active test. In
    the cycle that follows, the instrument the feed reports inactive is
    scanned and, on a signal, traded. *)
Lemma get_payout_keeps_inactive :
  feed_items (with_feed (Some (JArr [eurusd_inactive])) silent) holds_eurusd
    = Some [eurusd_inactive]
  /\ feed_in_layout (Some (JArr [eurusd_inactive])) = true
  /\ named "EURUSD" eurusd_inactive = true
  /\ is_active eurusd_inactive = false
  /\ PyDict.mem "EURUSD" (pairs holds_eurusd) = true
  /\ fst (get_payout bot_settings
            (with_feed (Some (JArr [eurusd_inactive])) silent) holds_eurusd)
     = true
  /\ PyDict.mem "EURUSD"
       (pairs (snd (get_payout bot_settings
                      (with_feed (Some (JArr [eurusd_inactive])) silent)
                      holds_eurusd))) = true
  /\ PyDict.mem "EURUSD"
       (pairs (snd (get_payout bot_settings
                      (with_feed (Some (JArr [eurusd_50])) silent)
                      holds_eurusd))) = false
  /\ orders (trace (world_of
               (trading_cycle 3 bot_settings
                  (market (JArr [eurusd_inactive]) ["EUR_USD"] 3650
                          [Some "win"])
                  holds_eurusd)))
     = [(1, "EURUSD", "call", 60)].
Proof. repeat split. Qed.




(** C9. A feed entry that fails the name, asset-class or active check
    leaves the whole eligible set -- so also the membership and stored
    payout of its instrument -- as it was, whether its iteration runs
    through or raises. An instrument that was in the set and is not after
    the loop was removed by an entry of its name that passes the three
    checks and whose payout does not reach the minimum. *)
Theorem get_payout_frame cfg :
  (forall e p,
      passes_gate e = false -> snd (get_payout_loop cfg [e] p) = p)
  /\ (forall items p n,
         PyDict.get n p <> None ->
         PyDict.get n (snd (get_payout_loop cfg items p)) = None ->
         exists e, In e items /\ named n e = true /\ passes_gate e = true
                   /\ payout_enough cfg e = false).
Proof.
  split.
  - intros e p Hg. simpl.
    destruct (get_payout_body cfg e p) as [p1|] eqn:Hb; [|reflexivity].
    simpl. now apply (get_payout_body_gate cfg e p).
  - intros items p n Hin Hout.
    destruct (get_payout_loop cfg items p) as [ok p'] eqn:Hl.
    now apply (get_payout_loop_removed cfg items p ok p' n).
Qed.

Lemma get_payout_frame_witness :
  snd (get_payout_loop bot_settings [eurusd_inactive] (pairs holds_eurusd))
    = pairs holds_eurusd
  /\ exists e, In e [eurusd_50] /\ named "EURUSD" e = true
               /\ passes_gate e = true
               /\ payout_enough bot_settings e = false.
Proof.
  split.
  - apply (proj1 (get_payout_frame bot_settings)). reflexivity.
  - apply (proj2 (get_payout_frame bot_settings) [eurusd_50]
             (pairs holds_eurusd) "EURUSD"); [discriminate | reflexivity].
Defined.

(** ** Trade executor and martingale controller *)

Lemma emit_trace e w : trace (emit e w) = (trace w ++ [e])%list.
Proof. reflexivity. Qed.

Lemma emit_pairs e w : pairs (emit e w) = pairs w.
Proof. reflexivity. Qed.

(** The two ways [perform_trade] goes, with the events each adds. *)
Lemma perform_trade_cases E amount pair action exp w :
  let reply := api_buy E (trace w) amount pair action exp in
  (exists id r,
      reply = (true, Some id)
      /\ perform_trade E amount pair action exp w =
           (Some r,
            {| pairs := pairs w;
               trace := trace w ++ [Buy amount pair action exp reply;
                                    Sleep (inject_Z exp);
                                    CheckWin id r] |}))
  \/ ((fst reply = false \/ snd reply = None)
      /\ perform_trade E amount pair action exp w =
           (None,
            {| pairs := pairs w;
               trace := trace w ++ [Buy amount pair action exp reply;
                                    Log MsgTradeFailed; Disconnect;
                                    Sleep 2; Connect] |})).
Proof.
  unfold perform_trade. simpl.
  destruct (api_buy E (trace w) amount pair action exp) as [[|] [id|]];
    simpl.
  - left. eexists _, _. split; [reflexivity|].
    unfold emit; simpl. now rewrite <- !app_assoc.
  - right. split; [now right|].
    unfold emit; simpl. now rewrite <- !app_assoc.
  - right. split; [now left|].
    unfold emit; simpl. now rewrite <- !app_assoc.
  - right. split; [now left|].
    unfold emit; simpl. now rewrite <- !app_assoc.
Qed.

Lemma final_state_app pre delta :
  delta <> [] -> final_state (pre ++ delta) = final_state delta.
Proof.
  intros Hne. unfold final_state. f_equal.
  induction pre as [|a pre IH]; [reflexivity|].
  simpl. destruct (pre ++ delta)%list eqn:Happ; [|exact IH].
  apply app_eq_nil in Happ. tauto.
Qed.

Section Ladder.

Variables (cfg : Config) (E : Env) (pair action : string).

(** The loop is never short of fuel once it has one unit per level still
    to climb; it adds the attempts the specification's state machine makes
    after a first result [r] at [level], all on the same instrument,
    action and expiry. *)
Lemma martingale_loop_run fuel : forall level amount r w,
  MARTINGALE_LEVEL cfg - level <= Z.of_nat fuel ->
  exists delta,
    martingale_loop fuel cfg E pair action level amount r w =
      Returned {| pairs := pairs w; trace := trace w ++ delta |}
    /\ delta <> []
    /\ spec_ladder (MARTINGALE_LEVEL cfg) level amount
         (Some (snd r) :: map snd (attempts delta)) =
       (amount :: map fst (attempts delta), Some (final_state delta))
    /\ orders delta
       = map (fun stake => (stake, pair, action, expiration cfg))
             (map fst (attempts delta))
    /\ forallb is_executor_event delta = true.
Proof.
  induction fuel as [|fuel IH]; intros level amount r w Hfuel.
  - simpl. destruct (String.eqb_spec (snd r) "loose") as [Hr|Hr]; simpl.
    + destruct (Z.ltb_spec level (MARTINGALE_LEVEL cfg)); [lia|].
      exists [Log MsgLoss]. repeat split; discriminate.
    + exists [Log MsgWin]. repeat split; discriminate.
  - cbn [martingale_loop spec_ladder map].
    destruct (String.eqb_spec (snd r) "loose") as [Hr|Hr]; simpl.
    + destruct (Z.ltb_spec level (MARTINGALE_LEVEL cfg)) as [Hlt|Hge].
      * destruct (perform_trade_cases E (amount * 2) pair action
                    (expiration cfg) w)
          as [(id & r' & Hreply & ->)|(Hfail & ->)].
        -- destruct (IH (level + 1) (amount * 2) r'
                       {| pairs := pairs w;
                          trace := trace w ++
                            [Buy (amount * 2) pair action (expiration cfg)
                               (api_buy E (trace w) (amount * 2) pair action
                                  (expiration cfg));
                             Sleep (inject_Z (expiration cfg));
                             CheckWin id r'] |})
             as (delta & -> & Hne & Hspec & Hord & Hexe); [lia|].
           simpl. rewrite <- app_assoc.
           eexists. split; [reflexivity|]. split; [discriminate|].
           simpl. simpl in Hspec. rewrite Hspec. split; [|split].
           ++ f_equal. f_equal.
              change (?a :: ?b :: ?c :: delta)
                with ([a; b; c] ++ delta)%list.
              now rewrite final_state_app.
           ++ now rewrite Hord.
           ++ exact Hexe.
        -- eexists. split; [reflexivity|]. split; [discriminate|].
           repeat split.
      * exists [Log MsgLoss]. repeat split; discriminate.
    + exists [Log MsgWin]. repeat split; discriminate.
Qed.

(** [martingale_strategy] always returns, and the attempts it makes are
    those of the specification's state machine started at level 1 with the
    base stake. *)
Lemma martingale_strategy_run df w :
  exists delta,
    martingale_strategy cfg E pair action df w =
      Returned {| pairs := pairs w; trace := trace w ++ delta |}
    /\ ladder_events cfg E pair action df w = delta
    /\ spec_ladder (MARTINGALE_LEVEL cfg) 1 (INITIAL_AMOUNT cfg)
         (map snd (attempts delta)) =
       (map fst (attempts delta), Some (final_state delta))
    /\ orders delta
       = map (fun stake => (stake, pair, action, expiration cfg))
             (map fst (attempts delta))
    /\ exists rest,
         delta = Log (MsgTradeData (Py.tail 5 df)) :: rest
         /\ forallb is_executor_event rest = true.
Proof.
  assert (Hskip : forall (t d : list Event),
             skipn (List.length t) (t ++ d) = d).
  { intros t d. induction t; simpl; auto. }
  unfold ladder_events, martingale_strategy.
  destruct (perform_trade_cases E (INITIAL_AMOUNT cfg) pair action
              (expiration cfg) (emit (Log (MsgTradeData (Py.tail 5 df))) w))
    as [(id & r & Hreply & ->)|(Hfail & ->)].
  - edestruct (martingale_loop_run (Z.to_nat (MARTINGALE_LEVEL cfg)) 1
                 (INITIAL_AMOUNT cfg) r)
      as (delta & -> & Hne & Hspec & Hord & Hexe); [lia|].
    simpl. rewrite <- !app_assoc. simpl.
    eexists. split; [reflexivity|]. rewrite Hskip.
    split; [reflexivity|]. simpl. split; [|split].
    + change (Log ?m :: ?a :: ?b :: ?c :: delta)
        with ([Log m; a; b; c] ++ delta)%list.
      rewrite final_state_app by assumption.
      simpl in Hspec. exact Hspec.
    + now rewrite Hord.
    + eexists. split; [reflexivity|]. exact Hexe.
  - simpl. rewrite <- !app_assoc. simpl.
    eexists. split; [reflexivity|]. rewrite Hskip.
    repeat split. eexists. split; reflexivity.
Qed.

End Ladder.

(** ** The state machine of the specification *)

Section SpecLadder.

Variable cap : Z.

(** The stake at level [L], counted from a first level [start], is the
    first stake doubled [L - start] times. *)
Lemma spec_ladder_stakes results : forall level stake stakes fin start,
  spec_ladder cap level stake results = (stakes, fin) ->
  stakes =
    map (fun L => stake * 2 ^ (Z.of_nat L - Z.of_nat start))
        (seq start (List.length stakes)).
Proof.
  induction results as [|o rest IH]; intros level stake stakes fin start;
    simpl.
  - now intros [= <- _].
  - assert (Hone : [stake] =
              map (fun L => stake * 2 ^ (Z.of_nat L - Z.of_nat start))
                  (seq start 1)).
    { simpl. now rewrite Z.sub_diag, Z.mul_1_r. }
    destruct o as [r|]; [|now intros [= <- _]].
    destruct (negb (r =? "loose")%string); [now intros [= <- _]|].
    destruct (level <? cap); [|now intros [= <- _]].
    destruct (spec_ladder cap (level + 1) (stake * 2) rest)
      as [st f] eqn:Hs.
    intros [= <- _]. simpl. rewrite Z.sub_diag, Z.mul_1_r. f_equal.
    rewrite (IH _ _ _ _ (S start) Hs) at 1.
    apply map_ext_in. intros L HL. apply in_seq in HL.
    replace (Z.of_nat L - Z.of_nat start)
      with (Z.succ (Z.of_nat L - Z.of_nat (S start))) by lia.
    rewrite Z.pow_succ_r by lia. ring.
Qed.

(** From level [level] on there are at most [cap - level + 1] attempts,
    and always the first. *)
Lemma spec_ladder_length results : forall level stake stakes fin,
  spec_ladder cap level stake results = (stakes, fin) ->
  Z.of_nat (List.length stakes) <= Z.max 1 (cap - level + 1).
Proof.
  induction results as [|o rest IH]; intros level stake stakes fin; simpl.
  - intros [= <- _]. simpl. lia.
  - destruct o as [r|]; [|intros [= <- _]; simpl; lia].
    destruct (negb (r =? "loose")%string); [intros [= <- _]; simpl; lia|].
    destruct (Z.ltb_spec level cap); [|intros [= <- _]; simpl; lia].
    destruct (spec_ladder cap (level + 1) (stake * 2) rest)
      as [st f] eqn:Hs.
    intros [= <- _]. apply IH in Hs. simpl List.length. lia.
Qed.

(** What the machine does at each attempt of a finished ladder. *)
Lemma spec_ladder_at atts : forall level stake fin,
  spec_ladder cap level stake (map snd atts) = (map fst atts, Some fin) ->
  forall i s o, nth_error atts i = Some (s, o) ->
    match o with
    | None => S i = List.length atts /\ fin = Aborted
    | Some r =>
        if (r =? "loose")%string then
          if level + Z.of_nat i <? cap then (S i < List.length atts)%nat
          else S i = List.length atts /\ fin = Lost
        else S i = List.length atts /\ fin = Won
    end.
Proof.
  induction atts as [|[s0 o0] rest IH]; intros level stake fin; simpl.
  - discriminate.
  - assert (Hlast : forall (i : nat) s o,
               [] = map fst rest ->
               nth_error ((s0, o0) :: rest) i = Some (s, o) ->
               o = o0 /\ i = 0%nat /\ rest = []).
    { intros i s o Hnil.
      destruct rest; [|discriminate]. destruct i as [|[|i]]; simpl;
        [|discriminate..]. now intros [= _ <-]. }
    destruct o0 as [r|].
    + destruct (String.eqb_spec r "loose") as [->|Hr]; simpl.
      * destruct (Z.ltb_spec level cap) as [Hlt|Hge].
        -- destruct (spec_ladder cap (level + 1) (stake * 2) (map snd rest))
             as [st f] eqn:Hs.
           intros [= _ Hst Hf] i s o Hi. subst st f.
           destruct i as [|i]; simpl in Hi.
           ++ injection Hi as _ <-. simpl.
              destruct (Z.ltb_spec (level + 0) cap); [|lia].
              destruct rest; [discriminate | simpl; lia].
           ++ specialize (IH _ _ _ Hs i s o Hi).
              replace (level + Z.of_nat (S i))
                with (level + 1 + Z.of_nat i) by lia.
              destruct o as [r|]; [|destruct IH; split; [lia|assumption]].
              destruct (r =? "loose")%string;
                [|destruct IH; split; [lia|assumption]].
              destruct (level + 1 + Z.of_nat i <? cap); [lia|].
              destruct IH; split; [lia|assumption].
        -- intros [= _ Hnil <-] i s o Hi.
           destruct (Hlast i s o Hnil Hi) as (-> & -> & ->). simpl.
           destruct (Z.ltb_spec (level + 0) cap); [lia|]. tauto.
      * intros [= _ Hnil <-] i s o Hi.
        destruct (Hlast i s o Hnil Hi) as (-> & -> & ->). simpl.
        destruct (String.eqb_spec r "loose"); [contradiction|]. tauto.
    + intros [= _ Hnil <-] i s o Hi.
      destruct (Hlast i s o Hnil Hi) as (-> & -> & ->). simpl. tauto.
Qed.

End SpecLadder.

(** C2. A ladder always returns, and its attempts and its end are those of
    the specification's state machine ([spec_ladder]) started at level 1
    with the base stake and fed the results the executor returned: it
    escalates -- level plus one, stake doubled, same instrument, action
    and expiry -- exactly after a loss (the broker's ['loose']) below the
    level cap. So the stake of the attempt at level [L] is
    [INITIAL_AMOUNT * 2 ^ (L - 1)], for [L] from 1 to at most the cap.
    With base stake 1, cap 3 and results loss, loss, win the stakes are 1,
    2, 4 and the ladder ends Won. *)
Theorem martingale_stakes :
  (forall cfg E pair action df w,
      let delta := ladder_events cfg E pair action df w in
      let atts := attempts delta in
      martingale_strategy cfg E pair action df w =
        Returned {| pairs := pairs w; trace := trace w ++ delta |}
      /\ spec_ladder (MARTINGALE_LEVEL cfg) 1 (INITIAL_AMOUNT cfg)
           (map snd atts) = (map fst atts, Some (final_state delta))
      /\ map fst atts =
           map (fun L => INITIAL_AMOUNT cfg * 2 ^ (Z.of_nat L - 1))
               (seq 1 (List.length atts))
      /\ Z.of_nat (List.length atts) <= Z.max 1 (MARTINGALE_LEVEL cfg)
      /\ orders delta =
           map (fun stake => (stake, pair, action, expiration cfg))
               (map fst atts))
  /\ attempts (ladder_events bot_settings
                 (scripted [Some "loose"; Some "loose"; Some "win"])
                 "EURUSD" "call" [] empty_world)
     = [(1, Some "loose"); (2, Some "loose"); (4, Some "win")]
  /\ final_state (ladder_events bot_settings
                    (scripted [Some "loose"; Some "loose"; Some "win"])
                    "EURUSD" "call" [] empty_world)
     = Won.
Proof.
  split; [|split; reflexivity].
  intros cfg E pair action df w delta atts.
  destruct (martingale_strategy_run cfg E pair action df w)
    as (d & Hrun & Hev & Hspec & Hord & Hshape).
  subst atts delta. rewrite Hev. repeat split; try assumption.
  - pose proof (spec_ladder_stakes _ _ _ _ _ _ 1%nat Hspec) as Hst.
    now rewrite !length_map in Hst.
  - pose proof (spec_ladder_length _ _ _ _ _ _ Hspec) as Hlen.
    rewrite length_map in Hlen. lia.
Qed.

(** C3. With a level cap of at least one level, a ladder makes at most
    [MARTINGALE_LEVEL] attempts whatever the results are; when the attempt
    at the cap is lost too, it is the last one and the ladder ends Lost.
    With cap 3 and results loss, loss, loss the stakes are 1, 2, 4 and no
    fourth attempt is made, although a fourth order would have won. *)
Theorem martingale_level_cap :
  (forall cfg E pair action df w,
      1 <= MARTINGALE_LEVEL cfg ->
      let delta := ladder_events cfg E pair action df w in
      let atts := attempts delta in
      Z.of_nat (List.length atts) <= MARTINGALE_LEVEL cfg
      /\ forall stake,
           nth_error atts (Z.to_nat (MARTINGALE_LEVEL cfg) - 1)
             = Some (stake, Some "loose") ->
           Z.of_nat (List.length atts) = MARTINGALE_LEVEL cfg
           /\ final_state delta = Lost)
  /\ attempts (ladder_events bot_settings
                 (scripted [Some "loose"; Some "loose"; Some "loose";
                            Some "win"])
                 "EURUSD" "call" [] empty_world)
     = [(1, Some "loose"); (2, Some "loose"); (4, Some "loose")]
  /\ final_state (ladder_events bot_settings
                    (scripted [Some "loose"; Some "loose"; Some "loose";
                               Some "win"])
                    "EURUSD" "call" [] empty_world)
     = Lost.
Proof.
  split; [|split; reflexivity].
  intros cfg E pair action df w Hcap delta atts.
  destruct (martingale_strategy_run cfg E pair action df w)
    as (d & Hrun & Hev & Hspec & Hord & Hshape).
  subst atts delta. rewrite Hev. split.
  - pose proof (spec_ladder_length _ _ _ _ _ _ Hspec) as Hlen.
    rewrite length_map in Hlen. lia.
  - intros stake Hn.
    pose proof (spec_ladder_at _ _ _ _ _ Hspec _ _ _ Hn) as Hat.
    cbn beta iota in Hat. rewrite String.eqb_refl in Hat.
    destruct (Z.ltb_spec
                (1 + Z.of_nat (Z.to_nat (MARTINGALE_LEVEL cfg) - 1))
                (MARTINGALE_LEVEL cfg)); [lia|].
    destruct Hat as [Hlen ->]. split; [lia | reflexivity].
Qed.

Lemma martingale_level_cap_witness :
  Z.of_nat (List.length
              (attempts (ladder_events bot_settings
                           (scripted [Some "loose"; Some "loose";
                                      Some "loose"; Some "win"])
                           "EURUSD" "call" [] empty_world)))
  <= MARTINGALE_LEVEL bot_settings
  /\ Z.of_nat (List.length
                 (attempts (ladder_events bot_settings
                              (scripted [Some "loose"; Some "loose";
                                         Some "loose"; Some "win"])
                              "EURUSD" "call" [] empty_world)))
     = MARTINGALE_LEVEL bot_settings
  /\ final_state (ladder_events bot_settings
                    (scripted [Some "loose"; Some "loose"; Some "loose";
                               Some "win"])
                    "EURUSD" "call" [] empty_world)
     = Lost.
Proof.
  destruct (proj1 martingale_level_cap bot_settings
              (scripted [Some "loose"; Some "loose"; Some "loose";
                         Some "win"])
              "EURUSD" "call" [] empty_world) as [Hmost Hlast].
  - simpl. lia.
  - split; [exact Hmost|]. apply (Hlast 4). reflexivity.
Defined.

(** C5. When the broker refuses the order or returns no trade identifier,
    [perform_trade] logs the failure, disconnects, sleeps two seconds,
    reconnects and returns null, in that order and doing nothing else. In
    a ladder an attempt that gave null is the last one and the ladder ends
    Aborted; when the first order is the one that fails, the ladder
    consists of that single attempt. *)
Theorem placement_failure_aborts :
  (forall E amount pair action exp w,
      fst (api_buy E (trace w) amount pair action exp) = false
      \/ snd (api_buy E (trace w) amount pair action exp) = None ->
      perform_trade E amount pair action exp w =
        (None,
         {| pairs := pairs w;
            trace := trace w ++
              [Buy amount pair action exp
                   (api_buy E (trace w) amount pair action exp);
               Log MsgTradeFailed; Disconnect; Sleep 2; Connect] |}))
  /\ (forall cfg E pair action df w i stake,
         nth_error (attempts (ladder_events cfg E pair action df w)) i
           = Some (stake, None) ->
         S i = List.length (attempts (ladder_events cfg E pair action df w))
         /\ final_state (ladder_events cfg E pair action df w) = Aborted)
  /\ (forall cfg E pair action df w,
         fst (api_buy E (trace w ++ [Log (MsgTradeData (Py.tail 5 df))])
                (INITIAL_AMOUNT cfg) pair action (expiration cfg)) = false
         \/ snd (api_buy E (trace w ++ [Log (MsgTradeData (Py.tail 5 df))])
                   (INITIAL_AMOUNT cfg) pair action (expiration cfg)) = None ->
         attempts (ladder_events cfg E pair action df w)
           = [(INITIAL_AMOUNT cfg, None)]
         /\ final_state (ladder_events cfg E pair action df w) = Aborted).
Proof.
  assert (Hfail : forall E amount pair action exp w,
      fst (api_buy E (trace w) amount pair action exp) = false
      \/ snd (api_buy E (trace w) amount pair action exp) = None ->
      perform_trade E amount pair action exp w =
        (None,
         {| pairs := pairs w;
            trace := trace w ++
              [Buy amount pair action exp
                   (api_buy E (trace w) amount pair action exp);
               Log MsgTradeFailed; Disconnect; Sleep 2; Connect] |})).
  { intros E amount pair action exp w Hreply.
    destruct (perform_trade_cases E amount pair action exp w)
      as [(id & r & Heq & _)|[_ Hp]]; [|exact Hp].
    rewrite Heq in Hreply. destruct Hreply; discriminate. }
  split; [exact Hfail|]. split.
  - intros cfg E pair action df w i stake Hn.
    destruct (martingale_strategy_run cfg E pair action df w)
      as (d & Hrun & Hev & Hspec & Hord & Hshape).
    rewrite Hev in *.
    exact (spec_ladder_at _ _ _ _ _ Hspec _ _ _ Hn).
  - intros cfg E pair action df w Hreply.
    unfold ladder_events, martingale_strategy.
    rewrite (Hfail E _ _ _ _ (emit (Log (MsgTradeData (Py.tail 5 df))) w))
      by exact Hreply.
    simpl. rewrite <- app_assoc.
    assert (Hskip : forall (t d : list Event),
               skipn (List.length t) (t ++ d) = d).
    { intros t d. induction t; simpl; auto. }
    rewrite Hskip. split; reflexivity.
Qed.

Lemma placement_failure_aborts_witness :
  perform_trade (scripted [None]) 1 "EURUSD" "call" 60 empty_world =
    (None,
     {| pairs := [];
        trace := [Buy 1 "EURUSD" "call" 60 (false, None);
                  Log MsgTradeFailed; Disconnect; Sleep 2; Connect] |})
  /\ (2 = List.length
            (attempts (ladder_events bot_settings
                         (scripted [Some "loose"; None; Some "win"])
                         "EURUSD" "call" [] empty_world))
      /\ final_state (ladder_events bot_settings
                        (scripted [Some "loose"; None; Some "win"])
                        "EURUSD" "call" [] empty_world) = Aborted)%nat
  /\ attempts (ladder_events bot_settings (scripted [None; Some "win"])
                 "EURUSD" "call" [] empty_world) = [(1, None)]
  /\ final_state (ladder_events bot_settings (scripted [None; Some "win"])
                    "EURUSD" "call" [] empty_world) = Aborted.
Proof.
  split; [|split].
  - apply (proj1 placement_failure_aborts (scripted [None]) 1 "EURUSD"
             "call" 60 empty_world).
    left. reflexivity.
  - apply (proj1 (proj2 placement_failure_aborts) bot_settings
             (scripted [Some "loose"; None; Some "win"]) "EURUSD" "call" []
             empty_world 1%nat 2).
    reflexivity.
  - apply (proj2 (proj2 placement_failure_aborts) bot_settings
             (scripted [None; Some "win"]) "EURUSD" "call" [] empty_world).
    left. reflexivity.
Defined.

(** C10. A result whose status is anything but ['loose'] -- a win, a draw,
    an unknown status -- ends the ladder where it stands: the loop does
    not escalate and logs the WIN line, exactly as for the status ['win'],
    and the attempt that gave it is the last one of a ladder that ends
    Won. *)
Theorem martingale_other_status_wins cfg E pair action status :
  status <> "loose" ->
  (forall fuel level amount profit w,
      martingale_loop fuel cfg E pair action level amount (profit, status) w
        = Returned (emit (Log MsgWin) w)
      /\ martingale_loop fuel cfg E pair action level amount
           (profit, status) w
         = martingale_loop fuel cfg E pair action level amount
             (profit, "win") w)
  /\ (forall df w i stake,
         nth_error (attempts (ladder_events cfg E pair action df w)) i
           = Some (stake, Some status) ->
         S i = List.length (attempts (ladder_events cfg E pair action df w))
         /\ final_state (ladder_events cfg E pair action df w) = Won).
Proof.
  intros Hs. split.
  - intros fuel level amount profit w.
    assert (Hwin : martingale_loop fuel cfg E pair action level amount
                     (profit, status) w = Returned (emit (Log MsgWin) w)).
    { destruct fuel; simpl;
        destruct (String.eqb_spec status "loose"); (contradiction || reflexivity). }
    split; [exact Hwin|]. rewrite Hwin.
    destruct fuel; reflexivity.
  - intros df w i stake Hn.
    destruct (martingale_strategy_run cfg E pair action df w)
      as (d & Hrun & Hev & Hspec & Hord & Hshape).
    rewrite Hev in *.
    pose proof (spec_ladder_at _ _ _ _ _ Hspec _ _ _ Hn) as Hat.
    cbn beta iota in Hat.
    destruct (String.eqb_spec status "loose"); [contradiction | exact Hat].
Qed.

Lemma martingale_other_status_wins_witness :
  martingale_loop 3 bot_settings (scripted [Some "draw"; Some "win"])
    "EURUSD" "call" 1 1 (JNull, "draw") empty_world
    = Returned (emit (Log MsgWin) empty_world)
  /\ (1 = List.length
            (attempts (ladder_events bot_settings
                         (scripted [Some "draw"; Some "win"])
                         "EURUSD" "call" [] empty_world)))%nat
  /\ final_state (ladder_events bot_settings
                    (scripted [Some "draw"; Some "win"])
                    "EURUSD" "call" [] empty_world) = Won.
Proof.
  destruct (martingale_other_status_wins bot_settings
              (scripted [Some "draw"; Some "win"]) "EURUSD" "call" "draw")
    as [Hloop Hlast].
  - discriminate.
  - split; [apply Hloop|]. apply (Hlast [] empty_world 0%nat 1).
    reflexivity.
Defined.

(** ** Signal detector *)

Lemma nth_error_last_row (df : list Row) :
  nth_error df (List.length df - 1) = last_row df.
Proof.
  unfold last_row.
  destruct df as [|r df] using rev_ind; [reflexivity|].
  rewrite rev_unit, length_app. simpl.
  replace (List.length df + 1 - 1)%nat with (List.length df) by lia.
  rewrite nth_error_app2 by lia. now rewrite Nat.sub_diag.
Qed.

(** [detect_signal] on a frame of at least three rows looks at the last
    row only. *)
Lemma detect_signal_long df w row :
  (3 <= List.length df)%nat -> last_row df = Some row ->
  detect_signal df w =
    if signal row =? 2 then (Some ("call", df), emit (Log MsgBuySignal) w)
    else if signal row =? -2 then
      (Some ("put", df), emit (Log MsgSellSignal) w)
    else (None, w).
Proof.
  intros Hlen Hlast. unfold detect_signal.
  destruct (Z.ltb_spec (Z.of_nat (List.length df) - 1) 2); [lia|].
  replace (Z.to_nat (Z.of_nat (List.length df) - 1))
    with (List.length df - 1)%nat by lia.
  now rewrite nth_error_last_row, Hlast.
Qed.

(** C4. On a prepared series of at least three rows [detect_signal]
    classifies the last row and nothing else: the action is call exactly
    when that row's [signal] (the difference of the trend direction to the
    row before) is +2, put exactly when it is -2, and there is no signal
    exactly when it is neither; a signal comes with the series itself. On
    a series of fewer than three rows it returns no signal, whatever the
    rows hold, and does nothing else. A series whose trend directions end
    with -1, -1, +1 has +2 in its last row and gives call. *)
Theorem detect_signal_classifies :
  (forall df w row,
      (3 <= List.length df)%nat -> last_row df = Some row ->
      (action_of (fst (detect_signal df w)) = Some "call"
       <-> signal row = 2)
      /\ (action_of (fst (detect_signal df w)) = Some "put"
          <-> signal row = -2)
      /\ (fst (detect_signal df w) = None
          <-> signal row <> 2 /\ signal row <> -2)
      /\ (forall found, fst (detect_signal df w) = Some found ->
                        snd found = df))
  /\ (forall df w,
         (List.length df < 3)%nat -> detect_signal df w = (None, w))
  /\ (exists df,
         reversal_up = Some df
         /\ map SUPERTd df = [-1; -1; 1]
         /\ option_map signal (last_row df) = Some 2
         /\ action_of (fst (detect_signal df empty_world)) = Some "call").
Proof.
  split; [|split].
  - intros df w row Hlen Hlast.
    rewrite (detect_signal_long df w row Hlen Hlast).
    destruct (Z.eqb_spec (signal row) 2) as [H2|H2];
      [|destruct (Z.eqb_spec (signal row) (-2)) as [Hm|Hm]];
      cbn [fst snd action_of option_map];
      (split; [|split; [|split]]);
      try (split; intros H; first [discriminate H | congruence | lia
                                  | destruct H; congruence]);
      try (intros found [= <-]; reflexivity);
      try discriminate.
  - intros df w Hlen. unfold detect_signal.
    destruct (Z.ltb_spec (Z.of_nat (List.length df) - 1) 2);
      [reflexivity | lia].
  - eexists. repeat split.
Qed.

Lemma detect_signal_classifies_witness :
  ((action_of (fst (detect_signal
                      [{| timestamp := 120; open := 1; high := 1; low := 1;
                          close := 1; RSI := 50; SUPERT := 1;
                          SUPERTd := 1; signal := 0 |};
                       {| timestamp := 180; open := 1; high := 1; low := 1;
                          close := 1; RSI := 50; SUPERT := 1;
                          SUPERTd := 1; signal := 0 |};
                       {| timestamp := 240; open := 1; high := 1; low := 1;
                          close := 1; RSI := 50; SUPERT := 1;
                          SUPERTd := -1; signal := -2 |}] empty_world))
    = Some "put")
   <-> -2 = -2)
  /\ detect_signal
       [{| timestamp := 180; open := 1; high := 1; low := 1;
           close := 1; RSI := 50; SUPERT := 1;
           SUPERTd := 1; signal := 2 |}] empty_world
     = (None, empty_world).
Proof.
  split.
  - apply (proj1 detect_signal_classifies
             [{| timestamp := 120; open := 1; high := 1; low := 1;
                 close := 1; RSI := 50; SUPERT := 1;
                 SUPERTd := 1; signal := 0 |};
              {| timestamp := 180; open := 1; high := 1; low := 1;
                 close := 1; RSI := 50; SUPERT := 1;
                 SUPERTd := 1; signal := 0 |};
              {| timestamp := 240; open := 1; high := 1; low := 1;
                 close := 1; RSI := 50; SUPERT := 1;
                 SUPERTd := -1; signal := -2 |}] empty_world
             {| timestamp := 240; open := 1; high := 1; low := 1;
                close := 1; RSI := 50; SUPERT := 1;
                SUPERTd := -1; signal := -2 |});
      [simpl; lia | reflexivity].
  - apply (proj1 (proj2 detect_signal_classifies)). simpl. lia.
Defined.

(** ** Candle synchroniser *)

(** The multiples of the period on both sides of a timestamp. *)
Lemma floor_multiples (now : Q) (p : Z) :
  0 < p ->
  (inject_Z (Qfloor (now / inject_Z p) * p) <= now)%Q
  /\ (now < inject_Z ((Qfloor (now / inject_Z p) + 1) * p))%Q.
Proof.
  intros Hp.
  assert (HP : (0 < inject_Z p)%Q).
  { change (inject_Z 0 < inject_Z p)%Q. now rewrite <- Zlt_Qlt. }
  assert (HP0 : ~ (inject_Z p == 0)%Q).
  { intros H0. rewrite H0 in HP. now apply Qlt_irrefl in HP. }
  assert (Hnow : (now / inject_Z p * inject_Z p == now)%Q).
  { rewrite Qmult_comm. now apply Qmult_div_r. }
  rewrite !inject_Z_mult. split.
  - rewrite <- Hnow at 2. apply Qmult_le_r; [exact HP|]. apply Qfloor_le.
  - rewrite <- Hnow at 1. apply Qmult_lt_r; [exact HP|]. apply Qlt_floor.
Qed.

Lemma next_candle_value (now : Q) (p : Z) :
  p <> 0 ->
  next_candle now p = Some (inject_Z ((Qfloor (now / inject_Z p) + 1) * p)).
Proof.
  intros Hp. unfold next_candle, floordiv, obind.
  destruct (Z.eqb_spec p 0); [contradiction|].
  now rewrite inject_Z_mult, inject_Z_plus.
Qed.

Lemma wait_until_next_candle_step E p sb fuel w :
  p <> 0 ->
  wait_until_next_candle fuel E p sb w =
    if released p sb (clock E (trace w)) then
      Returned (emit (Now (clock E (trace w))) w)
    else
      match fuel with
      | O => Waiting
      | S fuel' =>
          wait_until_next_candle fuel' E p sb
            (emit (Sleep (1 # 10)) (emit (Now (clock E (trace w))) w))
      end.
Proof.
  intros Hp. unfold released.
  destruct fuel; simpl; rewrite (next_candle_value _ _ Hp); reflexivity.
Qed.

(** The loop leaves at the first poll whose reading releases. *)
Lemma wait_until_next_candle_run E p sb fuel : forall w,
  p <> 0 ->
  wait_until_next_candle fuel E p sb w =
    match first_released p sb (readings (S fuel) E (trace w)) with
    | Some (before, t) =>
        Returned {| pairs := pairs w;
                    trace := trace w ++ polls before ++ [Now t] |}
    | None => Waiting
    end.
Proof.
  intros w Hp. revert w.
  induction fuel as [|fuel IH]; intros w;
    rewrite (wait_until_next_candle_step _ _ _ _ _ Hp).
  - change (readings 1 E (trace w)) with [clock E (trace w)].
    cbn [first_released].
    destruct (released p sb (clock E (trace w))); reflexivity.
  - change (readings (S (S fuel)) E (trace w))
      with (clock E (trace w)
            :: readings (S fuel) E
                 (trace w ++ [Now (clock E (trace w)); Sleep (1 # 10)])).
    cbn [first_released].
    destruct (released p sb (clock E (trace w))); [reflexivity|].
    rewrite IH.
    replace (trace (emit (Sleep (1 # 10))
                      (emit (Now (clock E (trace w))) w)))
      with (trace w ++ [Now (clock E (trace w)); Sleep (1 # 10)])%list
      by (simpl; now rewrite <- app_assoc).
    destruct (first_released p sb _) as [[before t]|]; [|reflexivity].
    simpl. now rewrite <- app_assoc.
Qed.

(** C7, as amended. For a positive period the candle boundary
    [wait_until_next_candle] computes from a timestamp [now] is the
    smallest multiple of the period strictly greater than [now] (one full
    period ahead when [now] is itself a multiple), computed from the epoch
    timestamp; it is computed anew at every poll, and the wait returns at
    the first poll whose reading is at or past its boundary minus
    [seconds_before], having slept a tenth of a second after each earlier
    poll; while no reading is, it goes on waiting. *)
Theorem wait_until_next_candle_boundary :
  forall (now : Q) (period_seconds : Z),
    0 < period_seconds ->
    (exists k,
        next_candle now period_seconds
          = Some (inject_Z (k * period_seconds))
        /\ (now < inject_Z (k * period_seconds))%Q
        /\ (forall m,
               (now < inject_Z (m * period_seconds))%Q -> k <= m)
        /\ (forall seconds_before,
               released period_seconds seconds_before now
                 = Qle_bool (inject_Z (k * period_seconds)
                             - inject_Z seconds_before) now))
    /\ (forall fuel E seconds_before w,
           wait_until_next_candle fuel E period_seconds seconds_before w =
             match first_released period_seconds seconds_before
                     (readings (S fuel) E (trace w)) with
             | Some (before, t) =>
                 Returned {| pairs := pairs w;
                             trace := trace w ++ polls before ++ [Now t] |}
             | None => Waiting
             end).
Proof.
  intros now p Hp. split.
  - exists (Qfloor (now / inject_Z p) + 1).
    destruct (floor_multiples now p Hp) as [Hlo Hhi].
    assert (Hnc : next_candle now p
                  = Some (inject_Z ((Qfloor (now / inject_Z p) + 1) * p)))
      by (apply next_candle_value; lia).
    split; [exact Hnc|]. split; [exact Hhi|]. split.
    + intros m Hm.
      destruct (Z_lt_le_dec m (Qfloor (now / inject_Z p) + 1))
        as [Hlt|Hle]; [|exact Hle].
      exfalso. apply (Qlt_irrefl now).
      apply (Qlt_le_trans _ _ _ Hm).
      apply (Qle_trans _ (inject_Z (Qfloor (now / inject_Z p) * p)));
        [|exact Hlo].
      rewrite <- Zle_Qle. nia.
    + intros sb. unfold released. now rewrite Hnc.
  - intros fuel E sb w. apply wait_until_next_candle_run. lia.
Qed.

Lemma wait_until_next_candle_boundary_witness :
  (exists k,
      next_candle 163 60 = Some (inject_Z (k * 60))
      /\ (163 < inject_Z (k * 60))%Q
      /\ (forall m, (163 < inject_Z (m * 60))%Q -> k <= m)
      /\ (forall seconds_before,
             released 60 seconds_before 163
               = Qle_bool (inject_Z (k * 60) - inject_Z seconds_before)
                          163))
  /\ wait_until_next_candle 5 (ticking 163 1) 60 15 empty_world
     = Returned {| pairs := [];
                   trace := [Now 163; Sleep (1 # 10); Now 165] |}.
Proof.
  destruct (wait_until_next_candle_boundary 163 60) as [Hk Hrun]; [lia|].
  split; [exact Hk|]. rewrite Hrun. reflexivity.
Defined.

(** C7 as stated fails: at [now = 120] with a period of 60 seconds the
    smallest multiple of the period that is at least [now] is 120 itself,
    but the boundary computed is 180; with a lead of 15 seconds the claim's
    wait would be over (120 is past 120 - 15), the program's is not. *)
Lemma next_candle_skips_exact_boundary :
  next_candle 120 60 = Some 180%Q
  /\ inject_Z (2 * 60) = 120%Q
  /\ (120 <= 120)%Q
  /\ (120 < 180)%Q
  /\ Qle_bool (120 - inject_Z 15) 120 = true
  /\ released 60 15 120 = false
  /\ wait_until_next_candle 0 (clock_at 120) 60 15 empty_world = Waiting.
Proof. repeat split; try reflexivity; try discriminate. Qed.

(** ** Cycle orchestrator *)

Lemma fetches_app a b : fetches (a ++ b) = (fetches a ++ fetches b)%list.
Proof. apply flat_map_app. Qed.

Lemma selections_app a b :
  selections (a ++ b) = (selections a ++ selections b)%list.
Proof. apply flat_map_app. Qed.

Lemma ladders_app a b : ladders (a ++ b) = (ladders a + ladders b)%nat.
Proof. unfold ladders. now rewrite filter_app, length_app. Qed.

Lemma orders_app a b : orders (a ++ b) = (orders a ++ orders b)%list.
Proof.
  induction a as [|e a IH]; [reflexivity|].
  destruct e; simpl; now rewrite ?IH.
Qed.

(** Quiet events show to none of the four observers. *)
Lemma quiet_events d :
  forallb is_quiet d = true ->
  fetches d = [] /\ selections d = [] /\ ladders d = 0%nat /\ orders d = [].
Proof.
  induction d as [|e d IH]; [now repeat split|].
  simpl. intros H. apply andb_prop in H. destruct H as [He Hd].
  destruct (IH Hd) as (Hf & Hs & Hl & Ho).
  unfold fetches, selections, ladders in *. simpl.
  destruct e as [[]| | | | | | |]; try discriminate He; simpl;
    now rewrite ?Hf, ?Hs, ?Hl, ?Ho.
Qed.

(** The executor's events are no request, no selection and no start of a
    ladder. *)
Lemma executor_events d :
  forallb is_executor_event d = true ->
  fetches d = [] /\ selections d = [] /\ ladders d = 0%nat.
Proof.
  induction d as [|e d IH]; [now repeat split|].
  simpl. intros H. apply andb_prop in H. destruct H as [He Hd].
  destruct (IH Hd) as (Hf & Hs & Hl).
  unfold fetches, selections, ladders in *. simpl.
  destruct e as [[]| | | | | | |]; try discriminate He; simpl;
    now rewrite ?Hf, ?Hs, ?Hl.
Qed.

(** The waits only read the clock and sleep. *)
Lemma wait_until_next_candle_quiet E p sb fuel : forall w w',
  wait_until_next_candle fuel E p sb w = Returned w' ->
  exists d, w' = {| pairs := pairs w; trace := trace w ++ d |}
            /\ forallb is_quiet d = true.
Proof.
  induction fuel as [|fuel IH]; intros w w'; simpl;
    destruct (next_candle _ p); try discriminate;
    destruct (Qle_bool _ _); try discriminate.
  - intros [= <-]. now exists [Now (clock E (trace w))].
  - intros [= <-]. now exists [Now (clock E (trace w))].
  - intros Hw. destruct (IH _ _ Hw) as (d & -> & Hq).
    exists (Now (clock E (trace w)) :: Sleep (1 # 10) :: d).
    simpl. now rewrite <- !app_assoc.
Qed.

Lemma wait_for_candle_start_quiet cfg E fuel : forall w w',
  wait_for_candle_start fuel cfg E w = Returned w' ->
  exists d, w' = {| pairs := pairs w; trace := trace w ++ d |}
            /\ forallb is_quiet d = true.
Proof.
  induction fuel as [|fuel IH]; intros w w'; simpl.
  - destruct (second_of _ =? 0); [|discriminate].
    destruct (period cfg / 60 =? 0); [discriminate|].
    destruct (_ mod _ =? 0); [|discriminate].
    intros [= <-]. now exists [Now (clock E (trace w))].
  - assert (Hagain :
        wait_for_candle_start fuel cfg E
          (emit (Sleep (1 # 10)) (emit (Now (clock E (trace w))) w))
        = Returned w' ->
        exists d, w' = {| pairs := pairs w; trace := trace w ++ d |}
                  /\ forallb is_quiet d = true).
    { intros Hw. destruct (IH _ _ Hw) as (d & -> & Hq).
      exists (Now (clock E (trace w)) :: Sleep (1 # 10) :: d).
      simpl. now rewrite <- !app_assoc. }
    destruct (second_of _ =? 0); [|exact Hagain].
    destruct (period cfg / 60 =? 0); [discriminate|].
    destruct (_ mod _ =? 0); [|exact Hagain].
    intros [= <-]. now exists [Now (clock E (trace w))].
Qed.

(** [detect_signal] adds at most one line, and its verdict does not
    depend on the world. *)
Lemma detect_signal_cases df w :
  fst (detect_signal df w) = fst (detect_signal df empty_world)
  /\ (detect_signal df w = (None, w)
      \/ (exists a line,
             detect_signal df w = (Some (a, df), emit (Log line) w)
             /\ (line = MsgBuySignal \/ line = MsgSellSignal))).
Proof.
  unfold detect_signal.
  destruct (_ <? 2); [now split; [|left]|].
  destruct (nth_error df _) as [row|]; [|now split; [|left]].
  destruct (signal row =? 2).
  - split; [reflexivity|]. right. exists "call", MsgBuySignal. tauto.
  - destruct (signal row =? -2).
    + split; [reflexivity|]. right. exists "put", MsgSellSignal. tauto.
    + now split; [|left].
Qed.

(** The scan requests the instruments in the order of the keys, stops at
    the first whose answer carries a signal and selects it; it places no
    order and starts no ladder. *)
Lemma scan_pairs_run E : forall keys w selected w',
  scan_pairs E keys w = Returned (selected, w') ->
  exists delta,
    w' = {| pairs := pairs w; trace := trace w ++ delta |}
    /\ orders delta = [] /\ ladders delta = 0%nat
    /\ match selected with
       | None =>
           map fst (fetches delta) = map oanda_name keys
           /\ Forall (fun f => signal_of E (snd f) = None) (fetches delta)
           /\ selections delta = []
       | Some (p, a, df) =>
           exists before skipped fs r,
             keys = (before ++ p :: skipped)%list
             /\ fetches delta = (fs ++ [(oanda_name p, r)])%list
             /\ map fst fs = map oanda_name before
             /\ Forall (fun f => signal_of E (snd f) = None) fs
             /\ signal_of E r = Some (a, df)
             /\ selections delta = [(p, a)]
       end.
Proof.
  induction keys as [|p keys IH]; intros w selected w'.
  - simpl. intros [= <- <-]. exists []. rewrite app_nil_r.
    destruct w. repeat split. constructor.
  - cbn [scan_pairs]. fold (oanda_name p).
    unfold get_oanda_candles.
    assert (Hfailed : forall reply,
      signal_of E reply = None ->
      scan_pairs E keys
        (emit (Log (MsgNoData p))
           (emit (Log (MsgCandleFetchFailed (oanda_name p)))
              (emit (Candles (oanda_name p) reply) w)))
      = Returned (selected, w') ->
      exists delta,
        w' = {| pairs := pairs w; trace := trace w ++ delta |}
        /\ orders delta = [] /\ ladders delta = 0%nat
        /\ match selected with
           | None =>
               map fst (fetches delta) = map oanda_name (p :: keys)
               /\ Forall (fun f => signal_of E (snd f) = None)
                         (fetches delta)
               /\ selections delta = []
           | Some (q, a, df) =>
               exists before skipped fs r,
                 p :: keys = (before ++ q :: skipped)%list
                 /\ fetches delta = (fs ++ [(oanda_name q, r)])%list
                 /\ map fst fs = map oanda_name before
                 /\ Forall (fun f => signal_of E (snd f) = None) fs
                 /\ signal_of E r = Some (a, df)
                 /\ selections delta = [(q, a)]
           end).
    { intros reply Hsig Hrest.
      destruct (IH _ _ _ Hrest) as (delta & -> & Hord & Hlad & Hsel).
      exists (Candles (oanda_name p) reply
              :: Log (MsgCandleFetchFailed (oanda_name p))
              :: Log (MsgNoData p) :: delta).
      simpl. rewrite <- ?app_assoc. simpl.
      split; [reflexivity|]. split; [exact Hord|]. split; [exact Hlad|].
      destruct selected as [[[q a] sdf]|].
      * destruct Hsel as (before & skipped & fs & r & -> & Hf & Hm & Hall
                          & Hr & Hs).
        exists (p :: before), skipped, ((oanda_name p, reply) :: fs), r.
        unfold fetches, selections in *. simpl.
        rewrite Hf, Hm, Hs. repeat split; try assumption.
        constructor; assumption.
      * destruct Hsel as (Hm & Hall & Hs).
        unfold fetches, selections in *. simpl.
        rewrite Hm, Hs. repeat split. constructor; assumption. }
    destruct (oanda_candles E (trace w) (oanda_name p)) as [[|c raw]|]
      eqn:Hreply; [now apply Hfailed| |now apply Hfailed].
    clear Hfailed.
    destruct (prepare_data E (c :: raw)) as [df|] eqn:Hprep; [|discriminate].
    destruct (detect_signal_cases df
                (emit (Candles (oanda_name p) (Some (c :: raw))) w))
      as [Hfst [Hnone|(a & line & Hsome & Hline)]].
    + rewrite Hnone. intros Hrest.
      destruct (IH _ _ _ Hrest) as (delta & -> & Hord & Hlad & Hsel).
      exists (Candles (oanda_name p) (Some (c :: raw))
              :: Log (MsgNoSignal p) :: delta).
      simpl. rewrite <- ?app_assoc. simpl.
      split; [reflexivity|]. split; [exact Hord|]. split; [exact Hlad|].
      assert (Hsig : signal_of E (Some (c :: raw)) = None).
      { simpl. rewrite Hprep, <- Hfst, Hnone. reflexivity. }
      destruct selected as [[[q a] sdf]|].
      * destruct Hsel as (before & skipped & fs & r & -> & Hf & Hm & Hall
                          & Hr & Hs).
        exists (p :: before), skipped,
          ((oanda_name p, Some (c :: raw)) :: fs), r.
        unfold fetches, selections in *. simpl.
        rewrite Hf, Hm, Hs. repeat split; try assumption.
        constructor; assumption.
      * destruct Hsel as (Hm & Hall & Hs).
        unfold fetches, selections in *. simpl.
        rewrite Hm, Hs. repeat split. constructor; assumption.
    + rewrite Hsome. intros [= <- <-].
      exists [Candles (oanda_name p) (Some (c :: raw)); Log line;
              Log (MsgSignalDetected p); Log (MsgSelected p a)].
      unfold emit. simpl. rewrite <- ?app_assoc. simpl.
      assert (Hq :
        orders [Candles (oanda_name p) (Some (c :: raw)); Log line;
                Log (MsgSignalDetected p); Log (MsgSelected p a)] = []
        /\ ladders [Candles (oanda_name p) (Some (c :: raw)); Log line;
                    Log (MsgSignalDetected p); Log (MsgSelected p a)]
           = 0%nat
        /\ fetches [Candles (oanda_name p) (Some (c :: raw)); Log line;
                    Log (MsgSignalDetected p); Log (MsgSelected p a)]
           = [(oanda_name p, Some (c :: raw))]
        /\ selections [Candles (oanda_name p) (Some (c :: raw)); Log line;
                       Log (MsgSignalDetected p); Log (MsgSelected p a)]
           = [(p, a)]).
      { destruct Hline as [-> | ->]; repeat split. }
      destruct Hq as (Ho & Hl & Hf & Hs).
      split; [reflexivity|]. split; [exact Ho|]. split; [exact Hl|].
      exists [], keys, [], (Some (c :: raw)).
      repeat split; try assumption; try constructor.
      simpl. rewrite Hprep, <- Hfst, Hsome. reflexivity.
Qed.

(** [get_payout] adds at most the parse-failure line. *)
Lemma get_payout_quiet cfg E w :
  exists d, trace (snd (get_payout cfg E w)) = (trace w ++ d)%list
            /\ forallb is_quiet d = true.
Proof.
  unfold get_payout.
  destruct (d <-? PayoutData E (trace w);; Py.iter d) as [items|].
  - destruct (get_payout_loop cfg items (pairs w)) as [[|] p'].
    + exists []. simpl. now rewrite app_nil_r.
    + now exists [Log MsgPayoutParseFailed].
  - now exists [Log MsgPayoutParseFailed].
Qed.

Lemma world_eta (w : World) : w = {| pairs := pairs w; trace := trace w |}.
Proof. now destruct w. Qed.

(** What shows of a stretch of history that is quiet before [mid] and
    holds no request and no selection after it. *)
Lemma observe_around pre mid post :
  forallb is_quiet pre = true ->
  fetches post = [] -> selections post = [] ->
  fetches (pre ++ mid ++ post) = fetches mid
  /\ selections (pre ++ mid ++ post) = selections mid
  /\ ladders (pre ++ mid ++ post) = (ladders mid + ladders post)%nat
  /\ orders (pre ++ mid ++ post) = (orders mid ++ orders post)%list.
Proof.
  intros Hpre Hf Hs.
  destruct (quiet_events pre Hpre) as (Hf0 & Hs0 & Hl0 & Ho0).
  rewrite !fetches_app, !selections_app, !ladders_app, !orders_app.
  rewrite Hf0, Hs0, Hl0, Ho0, Hf, Hs, !app_nil_r. now repeat split.
Qed.

(** C8. The keys of the eligible set stand in insertion order: an
    assignment puts a new instrument last and leaves one already present
    in its place. A cycle that comes to its end either failed to refresh
    the eligible set, and then requested no candles, selected nothing and
    placed no order; or it requested the candles of the instruments in the
    order of those keys, one after the other, up to and including the
    first instrument whose answer carries a signal: that instrument is the
    one selected, the instruments after it are not requested, and every
    order of the cycle is placed on it with the signalled action. When no
    answer carries a signal all instruments are requested and no order is
    placed. In every case the cycle starts at most one ladder. *)
Theorem cycle_selects_first_signal :
  (forall k (v : PairInfo) d,
      PyDict.keys (PyDict.set k v d)
      = if PyDict.mem k d then PyDict.keys d
        else (PyDict.keys d ++ [k])%list)
  /\ forall fuel cfg E w w',
      trading_cycle fuel cfg E w = Returned w' ->
      exists delta,
        trace w' = (trace w ++ delta)%list
        /\ pairs w'
           = pairs (snd (get_payout cfg E (emit (Log MsgCycleStart) w)))
        /\ (ladders delta <= 1)%nat
        /\ if fst (get_payout cfg E (emit (Log MsgCycleStart) w)) then
             match selections delta with
             | [] =>
                 map fst (fetches delta)
                   = map oanda_name (PyDict.keys (pairs w'))
                 /\ Forall (fun f => signal_of E (snd f) = None)
                           (fetches delta)
                 /\ orders delta = []
                 /\ ladders delta = 0%nat
             | [(p, a)] =>
                 exists before skipped fs r df stakes,
                   PyDict.keys (pairs w') = (before ++ p :: skipped)%list
                   /\ fetches delta = (fs ++ [(oanda_name p, r)])%list
                   /\ map fst fs = map oanda_name before
                   /\ Forall (fun f => signal_of E (snd f) = None) fs
                   /\ signal_of E r = Some (a, df)
                   /\ orders delta
                      = map (fun stake => (stake, p, a, expiration cfg))
                            stakes
             | _ => False
             end
           else
             fetches delta = [] /\ selections delta = []
             /\ orders delta = [].
Proof.
  split.
  { intros k v d. unfold PyDict.mem.
    destruct (PyDict.get k d) eqn:Hk.
    - apply PyDictFacts.keys_set_present. congruence.
    - now apply PyDictFacts.keys_set_absent. }
  intros fuel cfg E w w'. unfold trading_cycle.
  destruct (get_payout_quiet cfg E (emit (Log MsgCycleStart) w))
    as (d1 & Ht1 & Hq1).
  destruct (get_payout cfg E (emit (Log MsgCycleStart) w)) as [ok w1].
  simpl in Ht1. simpl fst. simpl snd.
  destruct ok; simpl negb; cbv iota.
  - destruct (wait_until_next_candle fuel E (period cfg) 15 w1)
      as [w2| |] eqn:Hw2; try discriminate.
    destruct (wait_until_next_candle_quiet _ _ _ _ _ _ Hw2)
      as (d2 & -> & Hq2).
    cbn [bind]. clear Hw2.
    match goal with
    | |- context [scan_pairs E ?ks ?w0] =>
        destruct (scan_pairs E ks w0) as [[selected w3]| |] eqn:Hscan
    end; try discriminate.
    destruct (scan_pairs_run _ _ _ _ _ Hscan)
      as (d3 & -> & Ho3 & Hl3 & Hsel).
    cbn [bind]. clear Hscan.
    match goal with
    | |- context [wait_for_candle_start fuel cfg E ?w0] =>
        destruct (wait_for_candle_start fuel cfg E w0) as [w4| |] eqn:Hw4
    end; try discriminate.
    destruct (wait_for_candle_start_quiet _ _ _ _ _ Hw4)
      as (d4 & -> & Hq4).
    cbn [bind]. clear Hw4. simpl pairs. simpl trace.
    rewrite Ht1. simpl pairs in Hsel.
    set (n := List.length (pairs w1)).
    set (pre := (Log MsgCycleStart
                 :: d1 ++ d2 ++ [Log MsgPreClose; Log (MsgChecking n)])%list).
    assert (Hpre : forallb is_quiet pre = true).
    { unfold pre. simpl. now rewrite !forallb_app, Hq1, Hq2. }
    destruct (quiet_events d4 Hq4) as (Hf4 & Hs4 & Hl4 & Ho4).
    intros Hcycle.
    assert (Hw' : exists post,
               w' = {| pairs := pairs w1;
                       trace := trace w ++ pre ++ d3 ++ post |}
               /\ fetches post = [] /\ selections post = []
               /\ (orders post = [] /\ ladders post = 0%nat
                   \/ exists p a df stakes,
                        selected = Some (p, a, df)
                        /\ ladders post = 1%nat
                        /\ orders post
                           = map (fun stake =>
                                    (stake, p, a, expiration cfg)) stakes)).
    { assert (Hnone :
          Returned
            (emit (Sleep 1)
               (emit (Log MsgNoValidSignal)
                  {| pairs := pairs w1;
                     trace := ((((((trace w ++ [Log MsgCycleStart]) ++ d1)
                                  ++ d2) ++ [Log MsgPreClose])
                                ++ [Log (MsgChecking n)]) ++ d3) ++ d4 |}))
          = Returned w' ->
          exists post,
            w' = {| pairs := pairs w1;
                    trace := trace w ++ pre ++ d3 ++ post |}
            /\ fetches post = [] /\ selections post = []
            /\ (orders post = [] /\ ladders post = 0%nat
                \/ exists p a df stakes,
                     selected = Some (p, a, df)
                     /\ ladders post = 1%nat
                     /\ orders post
                        = map (fun stake =>
                                 (stake, p, a, expiration cfg)) stakes)).
      { intros [= <-]. exists (d4 ++ [Log MsgNoValidSignal; Sleep 1])%list.
        split.
        { unfold emit, pre. simpl. f_equal.
          repeat (rewrite <- !app_assoc; simpl). reflexivity. }
        rewrite fetches_app, selections_app, orders_app, ladders_app.
        rewrite Hf4, Hs4, Hl4, Ho4. repeat split. now left. }
      destruct selected as [[[p a] df]|]; [|exact (Hnone Hcycle)].
      destruct (negb (p =? "")%string && negb (a =? "")%string);
        [|exact (Hnone Hcycle)].
      revert Hcycle.
      match goal with
      | |- context [martingale_strategy cfg E p a df ?w0] =>
          destruct (martingale_strategy_run cfg E p a df w0)
            as (d5 & -> & _ & _ & Ho5 & rest & -> & Hexe)
      end.
      cbn [bind]. intros [= <-].
      exists (d4 ++ Log (MsgExecuting p a)
                 :: Log (MsgTradeData (Py.tail 5 df))
                 :: rest ++ [Sleep 1])%list.
      destruct (executor_events rest Hexe) as (Hf5 & Hs5 & Hl5).
      split.
      { unfold emit, pre. simpl. f_equal.
        repeat (rewrite <- !app_assoc; simpl). reflexivity. }
      rewrite fetches_app, selections_app, orders_app, ladders_app.
      rewrite Hf4, Hs4, Hl4, Ho4.
      change (Log (MsgExecuting p a) :: Log (MsgTradeData (Py.tail 5 df))
              :: rest ++ [Sleep 1])%list
        with ([Log (MsgExecuting p a); Log (MsgTradeData (Py.tail 5 df))]
              ++ rest ++ [Sleep 1])%list.
      rewrite !fetches_app, !selections_app, !orders_app, !ladders_app.
      rewrite Hf5, Hs5, Hl5. repeat split.
      right. exists p, a, df, (map fst (attempts (Log (MsgTradeData (Py.tail 5 df)) :: rest))).
      repeat split. simpl. simpl in Ho5. rewrite app_nil_r. exact Ho5. }
    destruct Hw' as (post & -> & Hfp & Hsp & Hpost). clear Hcycle.
    destruct (observe_around pre d3 post Hpre Hfp Hsp)
      as (Hf & Hs & Hl & Ho).
    exists (pre ++ d3 ++ post)%list. simpl pairs. simpl trace.
    split; [reflexivity|]. split; [reflexivity|].
    rewrite Hf, Hs, Hl, Ho, Ho3, Hl3. simpl.
    destruct Hpost as [[Hop Hlp]|(p & a & df & stakes & -> & Hlp & Hop)];
      rewrite Hlp, Hop; (split; [lia|]).
    + destruct selected as [[[p a] df]|].
      * destruct Hsel as (before & skipped & fs & r & Hk & Hf3 & Hm & Hall
                          & Hr & Hs3).
        rewrite Hs3. exists before, skipped, fs, r, df, [].
        repeat split; assumption.
      * destruct Hsel as (Hm & Hall & Hs3).
        rewrite Hs3. repeat split; assumption.
    + destruct Hsel as (before & skipped & fs & r & Hk & Hf3 & Hm & Hall
                        & Hr & Hs3).
      rewrite Hs3. exists before, skipped, fs, r, df, stakes.
      repeat split; assumption.
  - intros [= <-].
    exists (Log MsgCycleStart :: d1 ++ [Log MsgPayoutFailed; Sleep 5])%list.
    assert (Hq : forallb is_quiet
                   (Log MsgCycleStart
                    :: d1 ++ [Log MsgPayoutFailed; Sleep 5]) = true).
    { simpl. now rewrite forallb_app, Hq1. }
    destruct (quiet_events _ Hq) as (Hf & Hs & Hl & Ho).
    rewrite Hf, Hs, Hl, Ho. simpl. rewrite Ht1.
    repeat split; try lia.
    repeat (rewrite <- !app_assoc; simpl). reflexivity.
Qed.

Lemma cycle_selects_first_signal_witness :
  map fst (fetches (trace (world_of cycle_example)))
    = ["EUR_USD"; "GBP_USD"]
  /\ selections (trace (world_of cycle_example)) = [("GBPUSD", "call")]
  /\ orders (trace (world_of cycle_example)) = [(1, "GBPUSD", "call", 60)]
  /\ exists delta,
       trace (world_of cycle_example) = (trace empty_world ++ delta)%list
       /\ (ladders delta <= 1)%nat.
Proof.
  split; [reflexivity|]. split; [reflexivity|]. split; [reflexivity|].
  destruct (proj2 cycle_selects_first_signal 3%nat bot_settings
              (market three_pairs ["GBP_USD"; "USD_JPY"] 3650 [Some "win"])
              empty_world (world_of cycle_example))
    as (delta & Htrace & _ & Hladders & _).
  - reflexivity.
  - exists delta. split; assumption.
Defined.

(** * Further properties of the code *)

(** ** The eligible set under [get_payout] *)

Lemma forallb_set {V : Type} (P : string * V -> bool) k v d :
  P (k, v) = true -> forallb P d = true ->
  forallb P (PyDict.set k v d) = true.
Proof.
  intros Hkv. induction d as [|[k0 v0] r IH]; simpl.
  - now rewrite Hkv.
  - intros H. apply andb_prop in H. destruct H as [H0 Hr].
    destruct (String.eqb k k0); simpl.
    + now rewrite Hkv, Hr.
    + now rewrite H0, IH.
Qed.

Lemma forallb_del {V : Type} (P : string * V -> bool) k d :
  forallb P d = true -> forallb P (PyDict.del k d) = true.
Proof.
  unfold PyDict.del. induction d as [|kv r IH]; simpl; [reflexivity|].
  intros H. apply andb_prop in H. destruct H as [H0 Hr].
  destruct (negb (String.eqb k (fst kv))); simpl; [|now apply IH].
  now rewrite H0, IH.
Qed.

Lemma get_payout_body_eligible cfg e p p' :
  get_payout_body cfg e p = Some p' ->
  forallb (eligible_record cfg) p = true ->
  forallb (eligible_record cfg) p' = true.
Proof.
  unfold get_payout_body, obind.
  destruct (Py.getitem e 1) as [name|]; [|discriminate].
  destruct (Py.getitem e 5) as [pay|]; [|discriminate].
  destruct (Py.getitem e 3) as [ty|]; [|discriminate].
  destruct (Py.getitem e 14) as [act|]; [|discriminate].
  destruct name as [| | | |s| |]; simpl; try discriminate.
  destruct (negb (Py.str_endswith s "_otc")) eqn:Hotc; simpl;
    [|now intros [= <-]].
  destruct (Py.eq_str ty "currency") eqn:Hty; simpl; [|now intros [= <-]].
  destruct (Py.truthy act); [|now intros [= <-]].
  destruct (Py.ge_int pay (min_payout cfg)) as [[|]|] eqn:Hge;
    [| |discriminate].
  - intros [= <-] Hp. apply forallb_set; [|exact Hp].
    unfold eligible_record. simpl. now rewrite Hotc, Hty, Hge.
  - destruct (PyDict.mem s p); intros [= <-] Hp; [|exact Hp].
    now apply forallb_del.
Qed.

Lemma get_payout_loop_eligible cfg items : forall p,
  forallb (eligible_record cfg) p = true ->
  forallb (eligible_record cfg) (snd (get_payout_loop cfg items p)) = true.
Proof.
  induction items as [|e rest IH]; intros p Hp; simpl; [exact Hp|].
  destruct (get_payout_body cfg e p) as [p1|] eqn:Hb; [|exact Hp].
  apply IH. now apply (get_payout_body_eligible cfg e p).
Qed.

Lemma get_payout_eligible cfg E w :
  forallb (eligible_record cfg) (pairs w) = true ->
  forallb (eligible_record cfg) (pairs (snd (get_payout cfg E w))) = true.
Proof.
  intros Hp. unfold get_payout.
  destruct (d <-? PayoutData E (trace w);; Py.iter d) as [items|];
    [|exact Hp].
  pose proof (get_payout_loop_eligible cfg items (pairs w) Hp) as Hl.
  destruct (get_payout_loop cfg items (pairs w)) as [[|] p']; exact Hl.
Qed.

(** X1. [get_payout] keeps the eligible set clean: when every record of
    the set is a non-OTC name of type ["currency"] with a payout that
    reaches the minimum, the same holds after the call, whether it returns
    true or false. The empty set the process starts from is clean. *)
Theorem get_payout_keeps_records_eligible cfg E w :
  forallb (eligible_record cfg) (pairs w) = true ->
  forallb (eligible_record cfg) (pairs (snd (get_payout cfg E w))) = true.
Proof. apply get_payout_eligible. Qed.

Lemma get_payout_keeps_records_eligible_witness :
  forallb (eligible_record bot_settings)
    (pairs (snd (get_payout bot_settings
                   (with_feed (Some (JArr [eurusd_75; eurusd_50; eurusd_75;
                                           JNull])) silent)
                   holds_eurusd))) = true.
Proof.
  apply (get_payout_keeps_records_eligible bot_settings
           (with_feed (Some (JArr [eurusd_75; eurusd_50; eurusd_75; JNull]))
                      silent) holds_eurusd).
  reflexivity.
Defined.

(** Whether the loop runs to its end depends on the feed alone. *)
Lemma get_payout_loop_success cfg items : forall p q,
  fst (get_payout_loop cfg items p) = true ->
  fst (get_payout_loop cfg items q) = true.
Proof.
  induction items as [|e rest IH]; intros p q; simpl; [reflexivity|].
  destruct (get_payout_body cfg e p) as [p1|] eqn:Hp; [|discriminate].
  destruct (get_payout_body cfg e q) as [q1|] eqn:Hq; [apply IH|].
  apply (get_payout_body_raises cfg e q p) in Hq. congruence.
Qed.

(** X2. Refreshing twice from the same feed changes nothing more: when the
    loop of [get_payout] ran to its end over a feed, it runs to its end
    over the same feed again, and every instrument then has the membership
    and the record the first run gave it. *)
Theorem get_payout_loop_twice cfg items p p1 n :
  get_payout_loop cfg items p = (true, p1) ->
  fst (get_payout_loop cfg items p1) = true
  /\ PyDict.get n (snd (get_payout_loop cfg items p1)) = PyDict.get n p1.
Proof.
  intros H1.
  assert (Hok : fst (get_payout_loop cfg items p1) = true).
  { apply (get_payout_loop_success cfg items p). now rewrite H1. }
  split; [exact Hok|].
  destruct (get_payout_loop cfg items p1) as [ok p2] eqn:H2.
  simpl in Hok. subst ok. simpl.
  rewrite (get_payout_loop_get cfg items p1 p2 n H2).
  rewrite (get_payout_loop_get cfg items p p1 n H1).
  now destruct (last_gated n items).
Qed.

Lemma get_payout_loop_twice_witness :
  fst (get_payout_loop bot_settings [eurusd_50; eurusd_75]
         [("EURUSD", {| payout := JInt 75; type := JStr "currency" |})])
  = true
  /\ PyDict.get "EURUSD"
       (snd (get_payout_loop bot_settings [eurusd_50; eurusd_75]
               [("EURUSD",
                 {| payout := JInt 75; type := JStr "currency" |})]))
     = PyDict.get "EURUSD"
         [("EURUSD", {| payout := JInt 75; type := JStr "currency" |})].
Proof.
  apply (get_payout_loop_twice bot_settings [eurusd_50; eurusd_75] []).
  reflexivity.
Defined.

(** ** The prepared series *)

Lemma insert_by_time_length c l :
  List.length (insert_by_time c l) = S (List.length l).
Proof.
  induction l as [|x r IH]; simpl; [reflexivity|].
  destruct (time c <=? time x); simpl; [reflexivity | now rewrite IH].
Qed.

Lemma sort_values_length df :
  List.length (sort_values df) = List.length df.
Proof.
  induction df as [|c r IH]; simpl; [reflexivity|].
  now rewrite insert_by_time_length, IH.
Qed.

Lemma insert_by_time_In x c l :
  In x (insert_by_time c l) <-> x = c \/ In x l.
Proof.
  induction l as [|y r IH]; simpl.
  - split; intros [H|H]; auto.
  - destruct (time c <=? time y); simpl; [|rewrite IH];
      split; intros H; intuition auto.
Qed.

Lemma sort_values_In x df : In x (sort_values df) <-> In x df.
Proof.
  induction df as [|c r IH]; simpl; [tauto|].
  rewrite insert_by_time_In, IH. split; intros [H|H]; auto.
Qed.

Lemma ascending_Forall x l :
  ascending (x :: l) = true -> Forall (Z.le x) l.
Proof.
  revert x. induction l as [|y r IH]; intros x H; [constructor|].
  simpl in H. apply andb_prop in H. destruct H as [Hxy Hr].
  apply Z.leb_le in Hxy. constructor; [exact Hxy|].
  apply IH in Hr. eapply Forall_impl; [|exact Hr].
  intros z Hz. simpl in Hz. lia.
Qed.

Lemma ascending_tail x l : ascending (x :: l) = true -> ascending l = true.
Proof.
  destruct l as [|y r]; [reflexivity|]. simpl. intros H.
  apply andb_prop in H. tauto.
Qed.

Lemma ascending_cons x l :
  Forall (Z.le x) l -> ascending l = true -> ascending (x :: l) = true.
Proof.
  destruct l as [|y r]; [reflexivity|]. intros Hx Hl.
  inversion Hx; subst. cbn [ascending]. cbn [ascending] in Hl.
  rewrite Hl. now rewrite (proj2 (Z.leb_le x y)).
Qed.

Lemma insert_by_time_ascending c l :
  ascending (map time l) = true ->
  ascending (map time (insert_by_time c l)) = true.
Proof.
  induction l as [|x r IH]; intros Hl; [reflexivity|].
  simpl. destruct (Z.leb_spec (time c) (time x)) as [Hle|Hgt].
  - change (ascending (time c :: map time (x :: r)) = true).
    apply ascending_cons; [|exact Hl].
    constructor; [exact Hle|].
    apply ascending_Forall in Hl. eapply Forall_impl; [|exact Hl].
    intros z Hz. simpl in Hz. lia.
  - change (ascending (time x :: map time (insert_by_time c r)) = true).
    apply ascending_cons.
    + apply Forall_forall. intros z Hz. apply in_map_iff in Hz.
      destruct Hz as (y & <- & Hy). apply insert_by_time_In in Hy.
      destruct Hy as [->|Hy]; [lia|].
      apply ascending_Forall in Hl.
      rewrite Forall_forall in Hl. apply Hl. now apply in_map.
    + apply IH. now apply ascending_tail in Hl.
Qed.

Lemma sort_values_ascending df :
  ascending (map time (sort_values df)) = true.
Proof.
  induction df as [|c r IH]; [reflexivity|].
  simpl. now apply insert_by_time_ascending.
Qed.

(** Each kept row is one of the candles, and the kept rows follow the
    order of the candles. *)
Lemma dropna_rows rsi supert df : forall i,
  (forall row, In row (dropna rsi supert i df) -> In (candle_of row) df)
  /\ (ascending (map time df) = true ->
      ascending (map timestamp (dropna rsi supert i df)) = true)
  /\ (List.length (dropna rsi supert i df) <= List.length df)%nat.
Proof.
  induction df as [|c rest IH]; intros i.
  - simpl. split; [tauto|]. split; [reflexivity | lia].
  - destruct (IH (S i)) as (Hin & Hasc & Hlen).
    assert (Hrow : forall row, prepared_row rsi supert i c = Some row ->
                               candle_of row = c).
    { unfold prepared_row, obind. intros row.
      destruct (cell rsi i); [|discriminate].
      destruct (cell (map fst supert) i); [|discriminate].
      destruct (cell (map snd supert) i); [|discriminate].
      destruct (diff (map snd supert) i); [|discriminate].
      intros [= <-]. now destruct c. }
    cbn [dropna].
    destruct (prepared_row rsi supert i c) as [row|] eqn:Hp.
    + split; [|split].
      * intros r [<-|Hr]; [left; symmetry; now apply Hrow | right; auto].
      * intros Hdf. cbn [map].
        apply ascending_cons; [|apply Hasc; now apply ascending_tail in Hdf].
        assert (Ht : timestamp row = time c)
          by (rewrite <- (Hrow row eq_refl); reflexivity).
        rewrite Ht. apply Forall_forall. intros z Hz.
        apply in_map_iff in Hz. destruct Hz as (r & <- & Hr).
        apply Hin in Hr. apply ascending_Forall in Hdf.
        rewrite Forall_forall in Hdf. apply Hdf.
        change (timestamp r) with (time (candle_of r)). now apply in_map.
      * simpl. lia.
    + split; [|split].
      * intros r Hr. right. auto.
      * intros Hdf. apply Hasc. now apply ascending_tail in Hdf.
      * simpl. lia.
Qed.

(** X3. The series [prepare_data] returns is in ascending order of time,
    whatever the order of the candles fetched, and each of its rows carries
    the time and the prices of one of those candles. *)
Theorem prepare_data_sorted_rows E df out :
  prepare_data E df = Some out ->
  ascending (map timestamp out) = true
  /\ forall row, In row out -> In (candle_of row) df.
Proof.
  unfold prepare_data.
  destruct (ta_supertrend E _ _ _) as [supert|]; [|discriminate].
  intros [= <-].
  match goal with
  | |- context [dropna ?rsi supert 0 (sort_values df)] =>
      destruct (dropna_rows rsi supert (sort_values df) 0%nat)
        as (Hin & Hasc & _)
  end.
  split.
  - apply Hasc, sort_values_ascending.
  - intros row Hrow. apply sort_values_In. now apply Hin.
Qed.

Lemma prepare_data_sorted_rows_witness :
  ascending
    (map timestamp
       [{| timestamp := 120; open := 1; high := 1; low := 1; close := 1;
           RSI := 50; SUPERT := 1; SUPERTd := -1; signal := 0 |};
        {| timestamp := 180; open := 1; high := 1; low := 1; close := 1;
           RSI := 50; SUPERT := 1; SUPERTd := -1; signal := 0 |};
        {| timestamp := 240; open := 1; high := 1; low := 1; close := 1;
           RSI := 50; SUPERT := 1; SUPERTd := 1; signal := 2 |}]) = true
  /\ forall row,
       In row
         [{| timestamp := 120; open := 1; high := 1; low := 1; close := 1;
             RSI := 50; SUPERT := 1; SUPERTd := -1; signal := 0 |};
          {| timestamp := 180; open := 1; high := 1; low := 1; close := 1;
             RSI := 50; SUPERT := 1; SUPERTd := -1; signal := 0 |};
          {| timestamp := 240; open := 1; high := 1; low := 1; close := 1;
             RSI := 50; SUPERT := 1; SUPERTd := 1; signal := 2 |}] ->
       In (candle_of row)
          [candle_at 240; candle_at 60; candle_at 180; candle_at 120].
Proof.
  apply (prepare_data_sorted_rows (indicators [-1; -1; -1; 1])
           [candle_at 240; candle_at 60; candle_at 180; candle_at 120]).
  reflexivity.
Defined.

Lemma prepared_row_first rsi supert c : prepared_row rsi supert 0 c = None.
Proof.
  unfold prepared_row, obind.
  destruct (cell rsi 0); [|reflexivity].
  destruct (cell (map fst supert) 0); [|reflexivity].
  destruct (cell (map snd supert) 0); reflexivity.
Qed.

(** X4. The first candle never reaches the prepared series (its
    difference to a row before is undefined), so the series is shorter
    than the candles fetched; and since a signal needs three rows, fewer
    than four candles never give a signal. *)
Theorem prepare_data_needs_four_candles E df out :
  prepare_data E df = Some out ->
  (List.length out <= List.length df - 1)%nat
  /\ ((List.length df < 4)%nat -> forall w, detect_signal out w = (None, w)).
Proof.
  unfold prepare_data.
  destruct (ta_supertrend E _ _ _) as [supert|]; [|discriminate].
  intros [= <-].
  match goal with
  | |- context [dropna ?rsi supert 0 (sort_values df)] => set (col := rsi)
  end.
  assert (Hlen : (List.length (dropna col supert 0 (sort_values df))
                  <= List.length df - 1)%nat).
  { rewrite <- (sort_values_length df).
    destruct (sort_values df) as [|c rest]; [simpl; lia|].
    cbn [dropna]. rewrite prepared_row_first.
    destruct (dropna_rows col supert rest 1%nat) as (_ & _ & Hl).
    simpl. lia. }
  split; [exact Hlen|].
  intros Hdf w. unfold detect_signal.
  destruct (Z.ltb_spec
              (Z.of_nat (List.length (dropna col supert 0 (sort_values df)))
               - 1) 2); [reflexivity | lia].
Qed.

Lemma prepare_data_needs_four_candles_witness :
  (List.length
     [{| timestamp := 120; open := 1; high := 1; low := 1; close := 1;
         RSI := 50; SUPERT := 1; SUPERTd := -1; signal := -2 |};
      {| timestamp := 180; open := 1; high := 1; low := 1; close := 1;
         RSI := 50; SUPERT := 1; SUPERTd := 1; signal := 2 |}]
   <= List.length [candle_at 60; candle_at 120; candle_at 180] - 1)%nat
  /\ ((List.length [candle_at 60; candle_at 120; candle_at 180] < 4)%nat ->
      forall w,
        detect_signal
          [{| timestamp := 120; open := 1; high := 1; low := 1; close := 1;
              RSI := 50; SUPERT := 1; SUPERTd := -1; signal := -2 |};
           {| timestamp := 180; open := 1; high := 1; low := 1; close := 1;
              RSI := 50; SUPERT := 1; SUPERTd := 1; signal := 2 |}] w
        = (None, w)).
Proof.
  apply (prepare_data_needs_four_candles (indicators [1; -1; 1])
           [candle_at 60; candle_at 120; candle_at 180]).
  reflexivity.
Defined.

Lemma cell_direction (supert : list (option Q * option Z)) k z :
  forallb (fun x => is_direction (snd x)) supert = true ->
  cell (map snd supert) k = Some z -> z = 1 \/ z = -1.
Proof.
  intros Hall. unfold cell.
  destruct (nth_error (map snd supert) k) as [[d|]|] eqn:Hk;
    try discriminate.
  intros [= ->]. apply nth_error_In in Hk. apply in_map_iff in Hk.
  destruct Hk as (x & Hx & Hin).
  rewrite forallb_forall in Hall. specialize (Hall x Hin).
  rewrite Hx in Hall. simpl in Hall. lia.
Qed.

(** X5. When SuperTrend reports only the directions +1 and -1, every row
    of the prepared series has such a direction and a [signal] of -2, 0 or
    +2; the signal is +2 only on a row whose direction is +1 and -2 only
    on a row whose direction is -1: a reversal shows on the row that has
    the new direction. *)
Theorem prepare_data_signal_values E df supert out :
  ta_supertrend E (map c_high (sort_values df)) (map c_low (sort_values df))
                (map c_close (sort_values df)) = Some supert ->
  forallb (fun x => is_direction (snd x)) supert = true ->
  prepare_data E df = Some out ->
  Forall (fun row =>
            (SUPERTd row = 1 \/ SUPERTd row = -1)
            /\ (signal row = -2 \/ signal row = 0 \/ signal row = 2)
            /\ (signal row = 2 -> SUPERTd row = 1)
            /\ (signal row = -2 -> SUPERTd row = -1)) out.
Proof.
  intros Hst Hdir. unfold prepare_data. rewrite Hst. intros [= <-].
  match goal with
  | |- context [dropna ?rsi supert 0 (sort_values df)] => generalize rsi
  end.
  intros rsi. generalize 0%nat. generalize (sort_values df).
  induction l as [|c rest IH]; intros i; [constructor|].
  cbn [dropna].
  destruct (prepared_row rsi supert i c) as [row|] eqn:Hrow; [|apply IH].
  constructor; [|apply IH].
  revert Hrow. unfold prepared_row, obind, diff.
  destruct (cell rsi i); [|discriminate].
  destruct (cell (map fst supert) i); [|discriminate].
  destruct (cell (map snd supert) i) as [sd|] eqn:Hsd; [|discriminate].
  destruct i as [|j]; [discriminate|].
  destruct (cell (map snd supert) j) as [b|] eqn:Hb; [|discriminate].
  intros [= <-]. simpl.
  destruct (cell_direction supert _ _ Hdir Hsd);
    destruct (cell_direction supert _ _ Hdir Hb); lia.
Qed.

Lemma prepare_data_signal_values_witness :
  Forall (fun row =>
            (SUPERTd row = 1 \/ SUPERTd row = -1)
            /\ (signal row = -2 \/ signal row = 0 \/ signal row = 2)
            /\ (signal row = 2 -> SUPERTd row = 1)
            /\ (signal row = -2 -> SUPERTd row = -1))
    [{| timestamp := 120; open := 1; high := 1; low := 1; close := 1;
        RSI := 50; SUPERT := 1; SUPERTd := -1; signal := 0 |};
     {| timestamp := 180; open := 1; high := 1; low := 1; close := 1;
        RSI := 50; SUPERT := 1; SUPERTd := -1; signal := 0 |};
     {| timestamp := 240; open := 1; high := 1; low := 1; close := 1;
        RSI := 50; SUPERT := 1; SUPERTd := 1; signal := 2 |}].
Proof.
  apply (prepare_data_signal_values (indicators [-1; -1; -1; 1])
           [candle_at 60; candle_at 120; candle_at 180; candle_at 240]
           [(Some 1%Q, Some (-1)); (Some 1%Q, Some (-1));
            (Some 1%Q, Some (-1)); (Some 1%Q, Some 1)]);
    reflexivity.
Defined.

(** X6. An RSI that cannot be computed silences the instrument without an
    error: no row of its series survives the clean-up, so no signal comes
    of it. *)
Theorem prepare_data_without_rsi E df out :
  ta_rsi E (map c_close (sort_values df)) = None ->
  prepare_data E df = Some out ->
  out = [] /\ forall w, detect_signal out w = (None, w).
Proof.
  intros Hrsi. unfold prepare_data. rewrite Hrsi.
  destruct (ta_supertrend E _ _ _) as [supert|]; [|discriminate].
  intros [= <-].
  assert (Hnil : forall l i, dropna [] supert i l = []).
  { induction l as [|c rest IH]; intros i; [reflexivity|].
    cbn [dropna]. unfold prepared_row, obind, cell.
    now destruct i; simpl; rewrite IH. }
  rewrite Hnil. split; [reflexivity|]. reflexivity.
Qed.

Lemma prepare_data_without_rsi_witness :
  @nil Row = [] /\ forall w, detect_signal [] w = (None, w).
Proof.
  apply (prepare_data_without_rsi (without_rsi [-1; -1; -1; 1])
           [candle_at 60; candle_at 120; candle_at 180; candle_at 240]);
    reflexivity.
Defined.

(** ** What the scan can end with *)

(** A scan that found nothing in its first instruments goes on with the
    others from the world it has reached. *)
Lemma scan_pairs_app E before later : forall w w1,
  scan_pairs E before w = Returned (None, w1) ->
  scan_pairs E (before ++ later) w = scan_pairs E later w1.
Proof.
  induction before as [|p before IH]; intros w w1.
  - simpl. now intros [= <-].
  - cbn [scan_pairs app]. fold (oanda_name p). unfold get_oanda_candles.
    destruct (oanda_candles E (trace w) (oanda_name p)) as [[|c raw]|];
      try apply IH.
    destruct (prepare_data E (c :: raw)) as [df|]; [|discriminate].
    destruct (detect_signal df _) as [[[a sdf]|] w2];
      [discriminate | apply IH].
Qed.

(** X7. The scan raises exactly when it reaches -- no instrument before
    having given a signal -- an instrument whose request is answered with
    candles on which SuperTrend returns [None]: [prepare_data] subscripts
    that [None], and no [try] stands between it and the loop. Requests
    that fail or come back empty never raise. *)
Theorem scan_pairs_raises_only_on_supertrend E keys w :
  scan_pairs E keys w = Raised <->
  exists before p rest w1 c raw,
    keys = (before ++ p :: rest)%list
    /\ scan_pairs E before w = Returned (None, w1)
    /\ oanda_candles E (trace w1) (oanda_name p) = Some (c :: raw)
    /\ ta_supertrend E (map c_high (sort_values (c :: raw)))
                     (map c_low (sort_values (c :: raw)))
                     (map c_close (sort_values (c :: raw))) = None.
Proof.
  split.
  - revert w. induction keys as [|p keys IH]; intros w; [discriminate|].
    assert (Hnext : forall w2,
      scan_pairs E [p] w = Returned (None, w2) ->
      scan_pairs E keys w2 = Raised ->
      exists before q rest w1 c raw,
        p :: keys = (before ++ q :: rest)%list
        /\ scan_pairs E before w = Returned (None, w1)
        /\ oanda_candles E (trace w1) (oanda_name q) = Some (c :: raw)
        /\ ta_supertrend E (map c_high (sort_values (c :: raw)))
                         (map c_low (sort_values (c :: raw)))
                         (map c_close (sort_values (c :: raw))) = None).
    { intros w2 Hp Hrest.
      destruct (IH _ Hrest)
        as (before & q & rest & w1 & c & raw & -> & Hscan & Hreply & Hst).
      exists (p :: before), q, rest, w1, c, raw.
      split; [reflexivity|]. split; [|tauto].
      change (p :: before) with ([p] ++ before)%list.
      now rewrite (scan_pairs_app E [p] before w w2 Hp). }
    revert Hnext.
    cbn [scan_pairs]. fold (oanda_name p). unfold get_oanda_candles.
    destruct (oanda_candles E (trace w) (oanda_name p)) as [[|c raw]|]
      eqn:Hreply; try (intros Hnext; now apply Hnext).
    destruct (prepare_data E (c :: raw)) as [df|] eqn:Hprep.
    + destruct (detect_signal df _) as [[[a sdf]|] w2];
        [discriminate | intros Hnext; now apply Hnext].
    + intros _ _. exists [], p, keys, w, c, raw.
      split; [reflexivity|]. split; [reflexivity|]. split; [exact Hreply|].
      revert Hprep. unfold prepare_data.
      now destruct (ta_supertrend E _ _ _).
  - intros (before & p & rest & w1 & c & raw & -> & Hscan & Hreply & Hst).
    rewrite (scan_pairs_app E before (p :: rest) w w1 Hscan).
    cbn [scan_pairs]. fold (oanda_name p). unfold get_oanda_candles.
    rewrite Hreply. unfold prepare_data. now rewrite Hst.
Qed.

Lemma scan_pairs_raises_only_on_supertrend_witness :
  scan_pairs eur_usd_missing ["EURUSD"; "GBPUSD"; "USDJPY"] empty_world
  = Raised.
Proof.
  apply (proj2 (scan_pairs_raises_only_on_supertrend eur_usd_missing
                  ["EURUSD"; "GBPUSD"; "USDJPY"] empty_world)).
  exists ["EURUSD"], "GBPUSD", ["USDJPY"],
    {| pairs := [];
       trace := [Candles "EUR_USD" None;
                 Log (MsgCandleFetchFailed "EUR_USD");
                 Log (MsgNoData "EURUSD")] |},
    (candle_at 60), [candle_at 120; candle_at 180].
  repeat split.
Defined.

(** ** The history of a ladder *)

Lemma skipn_length_app {A : Type} (t d : list A) :
  skipn (List.length t) (t ++ d) = d.
Proof. induction t; simpl; auto. Qed.

(** After a placed order with result [r], the loop writes what the
    grammar allows after that result. *)
Lemma martingale_loop_trace cfg E pair action fuel :
  forall level amount id r w,
    MARTINGALE_LEVEL cfg - level <= Z.of_nat fuel ->
    exists delta,
      martingale_loop fuel cfg E pair action level amount r w =
        Returned {| pairs := pairs w; trace := trace w ++ delta |}
      /\ ladder_trace cfg pair action amount
           (Buy amount pair action (expiration cfg) (true, Some id)
            :: Sleep (inject_Z (expiration cfg)) :: CheckWin id r :: delta).
Proof.
  induction fuel as [|fuel IH]; intros level amount id r w Hfuel.
  - simpl. destruct (String.eqb_spec (snd r) "loose") as [Hr|Hr]; simpl.
    + destruct (Z.ltb_spec level (MARTINGALE_LEVEL cfg)); [lia|].
      exists [Log MsgLoss]. split; [reflexivity|]. now constructor.
    + exists [Log MsgWin]. split; [reflexivity|]. now constructor.
  - cbn [martingale_loop].
    destruct (String.eqb_spec (snd r) "loose") as [Hr|Hr]; simpl.
    + destruct (Z.ltb_spec level (MARTINGALE_LEVEL cfg)) as [Hlt|Hge].
      * destruct (perform_trade_cases E (amount * 2) pair action
                    (expiration cfg) w)
          as [(id' & r' & Hreply & ->)|(Hfail & ->)].
        -- destruct (IH (level + 1) (amount * 2) id' r'
                       {| pairs := pairs w;
                          trace := trace w ++
                            [Buy (amount * 2) pair action (expiration cfg)
                               (api_buy E (trace w) (amount * 2) pair action
                                  (expiration cfg));
                             Sleep (inject_Z (expiration cfg));
                             CheckWin id' r'] |})
             as (delta & -> & Hgr); [lia|].
           simpl. rewrite <- app_assoc.
           eexists. split; [reflexivity|].
           apply ladder_next; [exact Hr|]. simpl. rewrite Hreply.
           exact Hgr.
        -- eexists. split; [reflexivity|].
           apply ladder_next; [exact Hr|]. now constructor.
      * exists [Log MsgLoss]. split; [reflexivity|]. now constructor.
    + exists [Log MsgWin]. split; [reflexivity|]. now constructor.
Qed.

Lemma martingale_strategy_trace cfg E pair action df w :
  exists rest,
    ladder_events cfg E pair action df w
      = Log (MsgTradeData (Py.tail 5 df)) :: rest
    /\ ladder_trace cfg pair action (INITIAL_AMOUNT cfg) rest.
Proof.
  unfold ladder_events, martingale_strategy.
  destruct (perform_trade_cases E (INITIAL_AMOUNT cfg) pair action
              (expiration cfg) (emit (Log (MsgTradeData (Py.tail 5 df))) w))
    as [(id & r & Hreply & ->)|(Hfail & ->)].
  - edestruct (martingale_loop_trace cfg E pair action
                 (Z.to_nat (MARTINGALE_LEVEL cfg)) 1 (INITIAL_AMOUNT cfg)
                 id r)
      as (delta & -> & Hgr); [lia|].
    simpl. rewrite <- !app_assoc. simpl. rewrite skipn_length_app.
    eexists. split; [reflexivity|]. simpl in Hreply.
    rewrite Hreply. exact Hgr.
  - simpl. rewrite <- !app_assoc. simpl. rewrite skipn_length_app.
    eexists. split; [reflexivity|]. now constructor.
Qed.

(** X8. Every ladder writes its history by one grammar: the trade-data
    line, then orders on the one instrument, action and expiry, the first
    at the base stake and each next at twice the stake before. A placed
    order is followed by the sleep of the whole expiry and by the query
    for exactly the trade identifier that order returned; the next order
    comes only after a result ['loose']; the WIN line closes the ladder
    after any other result, the LOSS line after a result ['loose']; a
    refused order is followed by the failure line and the reset of the
    connection, and nothing comes after it. *)
Theorem ladder_history_grammar cfg E pair action df w :
  exists rest,
    ladder_events cfg E pair action df w
      = Log (MsgTradeData (Py.tail 5 df)) :: rest
    /\ ladder_trace cfg pair action (INITIAL_AMOUNT cfg) rest.
Proof. apply martingale_strategy_trace. Qed.

Lemma final_state_after3 a b c rest :
  rest <> [] -> final_state (a :: b :: c :: rest) = final_state rest.
Proof.
  intros Hne. change (a :: b :: c :: rest) with ([a; b; c] ++ rest)%list.
  now apply final_state_app.
Qed.

Lemma ladder_trace_nonempty cfg pair action amount t :
  ladder_trace cfg pair action amount t -> t <> [].
Proof. intros H. destruct H; discriminate. Qed.

(** What the grammar says about attempts, resets and the end. *)
Lemma ladder_trace_facts cfg pair action amount t :
  ladder_trace cfg pair action amount t ->
  (exists init last,
      attempts t = (init ++ [last])%list
      /\ Forall (fun a => snd a = Some "loose") init
      /\ final_state t = state_of_result (snd last))
  /\ disconnects t = connects t
  /\ disconnects t = (if match final_state t with
                         | Aborted => true
                         | _ => false
                         end then 1 else 0)%nat
  /\ total (map fst (attempts t))
     = amount * (2 ^ Z.of_nat (List.length (attempts t)) - 1).
Proof.
  induction 1 as [amount reply Hf|amount id r Hr|amount id r Hr
                  |amount id r rest Hr Hrest IH].
  - split; [|repeat split; simpl; try reflexivity; ring].
    exists [], (amount, None). repeat split. constructor.
  - split; [|repeat split; simpl; try reflexivity; ring].
    exists [], (amount, Some (snd r)). simpl. repeat split; [constructor|].
    unfold state_of_result.
    now destruct (String.eqb_spec (snd r) "loose").
  - split; [|repeat split; simpl; try reflexivity; ring].
    exists [], (amount, Some (snd r)). simpl. repeat split; [constructor|].
    unfold state_of_result. now rewrite Hr.
  - destruct IH as ((init & last & Hatt & Hall & Hfin) & Hdc & Hd & Htot).
    pose proof (ladder_trace_nonempty _ _ _ _ _ Hrest) as Hne.
    rewrite (final_state_after3 _ _ _ _ Hne).
    split; [|split; [|split]].
    + exists ((amount, Some "loose") :: init), last.
      cbn [attempts settled]. rewrite Hatt, Hr.
      repeat split; [constructor; [reflexivity|assumption] | exact Hfin].
    + exact Hdc.
    + exact Hd.
    + cbn [attempts map total fold_right List.length].
      fold (total (map fst (attempts rest))). rewrite Htot.
      rewrite Nat2Z.inj_succ, Z.pow_succ_r by lia. cbn [fst]. ring.
Qed.

(** X9. In every ladder all attempts but the last ended with the result
    ['loose'], and the result of the last attempt decides how the ladder
    ends: Aborted when the order was not placed, Lost when the result is
    ['loose'], Won for any other result. *)
Theorem ladder_ends_by_last_attempt cfg E pair action df w :
  exists init last,
    attempts (ladder_events cfg E pair action df w) = (init ++ [last])%list
    /\ Forall (fun a => snd a = Some "loose") init
    /\ final_state (ladder_events cfg E pair action df w)
       = state_of_result (snd last).
Proof.
  destruct (martingale_strategy_trace cfg E pair action df w)
    as (rest & -> & Hgr).
  destruct (ladder_trace_facts _ _ _ _ _ Hgr)
    as ((init & last & Hatt & Hall & Hfin) & _).
  exists init, last. cbn [attempts]. split; [exact Hatt|].
  split; [exact Hall|].
  change (Log (MsgTradeData (Py.tail 5 df)) :: rest)
    with ([Log (MsgTradeData (Py.tail 5 df))] ++ rest)%list.
  rewrite final_state_app; [exact Hfin|].
  now apply ladder_trace_nonempty in Hgr.
Qed.

(** X10. A ladder drops the connection as often as it opens it again: not
    at all when it ends Won or Lost, exactly once when it ends Aborted. *)
Theorem ladder_resets_connection_once cfg E pair action df w :
  disconnects (ladder_events cfg E pair action df w)
  = connects (ladder_events cfg E pair action df w)
  /\ disconnects (ladder_events cfg E pair action df w)
     = (if match final_state (ladder_events cfg E pair action df w) with
           | Aborted => true
           | _ => false
           end then 1 else 0)%nat.
Proof.
  destruct (martingale_strategy_trace cfg E pair action df w)
    as (rest & -> & Hgr).
  destruct (ladder_trace_facts _ _ _ _ _ Hgr) as (_ & Hdc & Hd & _).
  change (Log (MsgTradeData (Py.tail 5 df)) :: rest)
    with ([Log (MsgTradeData (Py.tail 5 df))] ++ rest)%list.
  rewrite final_state_app by (now apply ladder_trace_nonempty in Hgr).
  split; [exact Hdc | exact Hd].
Qed.

Lemma ladder_attempts_count cfg E pair action df w :
  1 <= Z.of_nat (List.length (attempts (ladder_events cfg E pair action df w)))
    <= Z.max 1 (MARTINGALE_LEVEL cfg).
Proof.
  destruct (martingale_strategy_run cfg E pair action df w)
    as (d & Hrun & Hev & Hspec & Hord & Hshape).
  rewrite Hev. split.
  - destruct (attempts d); [discriminate Hspec | simpl; lia].
  - pose proof (spec_ladder_length _ _ _ _ _ _ Hspec) as Hlen.
    rewrite length_map in Hlen. lia.
Qed.

(** X11. With a non-negative base stake, the stakes of a ladder of [n]
    attempts add up to [INITIAL_AMOUNT * (2 ^ n - 1)], so a ladder never
    puts more at risk than
    [INITIAL_AMOUNT * (2 ^ max 1 MARTINGALE_LEVEL - 1)]: 7 times the base
    stake with the cap of 3 the module sets. *)
Theorem ladder_exposure cfg E pair action df w :
  0 <= INITIAL_AMOUNT cfg ->
  total (map fst (attempts (ladder_events cfg E pair action df w)))
  = INITIAL_AMOUNT cfg
    * (2 ^ Z.of_nat
             (List.length (attempts (ladder_events cfg E pair action df w)))
       - 1)
  /\ total (map fst (attempts (ladder_events cfg E pair action df w)))
     <= INITIAL_AMOUNT cfg * (2 ^ Z.max 1 (MARTINGALE_LEVEL cfg) - 1).
Proof.
  intros Hbase.
  pose proof (ladder_attempts_count cfg E pair action df w) as Hcount.
  destruct (martingale_strategy_trace cfg E pair action df w)
    as (rest & Hev & Hgr).
  destruct (ladder_trace_facts _ _ _ _ _ Hgr) as (_ & _ & _ & Htot).
  rewrite Hev in *. cbn [attempts] in *.
  split; [exact Htot|]. rewrite Htot.
  apply Z.mul_le_mono_nonneg_l; [exact Hbase|].
  apply Z.sub_le_mono_r. apply Z.pow_le_mono_r; lia.
Qed.

Lemma ladder_exposure_witness :
  total (map fst (attempts (ladder_events bot_settings
                              (scripted [Some "loose"; Some "loose";
                                         Some "loose"; Some "win"])
                              "EURUSD" "call" [] empty_world)))
  = INITIAL_AMOUNT bot_settings
    * (2 ^ Z.of_nat
             (List.length
                (attempts (ladder_events bot_settings
                             (scripted [Some "loose"; Some "loose";
                                        Some "loose"; Some "win"])
                             "EURUSD" "call" [] empty_world)))
       - 1)
  /\ total (map fst (attempts (ladder_events bot_settings
                                 (scripted [Some "loose"; Some "loose";
                                            Some "loose"; Some "win"])
                                 "EURUSD" "call" [] empty_world)))
     <= INITIAL_AMOUNT bot_settings
        * (2 ^ Z.max 1 (MARTINGALE_LEVEL bot_settings) - 1).
Proof.
  apply (ladder_exposure bot_settings
           (scripted [Some "loose"; Some "loose"; Some "loose"; Some "win"])
           "EURUSD" "call" [] empty_world).
  simpl. lia.
Defined.

(** X12. A ladder places its first order before it looks at the level
    cap: with a cap of 1 or less -- even 0 or a negative one -- it makes
    exactly one attempt, whatever its result. *)
Theorem ladder_single_attempt cfg E pair action df w :
  MARTINGALE_LEVEL cfg <= 1 ->
  List.length (attempts (ladder_events cfg E pair action df w)) = 1%nat.
Proof.
  intros Hcap.
  pose proof (ladder_attempts_count cfg E pair action df w). lia.
Qed.

Lemma ladder_single_attempt_witness :
  List.length
    (attempts (ladder_events no_levels
                 (scripted [Some "loose"; Some "win"]) "EURUSD" "call" []
                 empty_world)) = 1%nat.
Proof.
  apply (ladder_single_attempt no_levels
           (scripted [Some "loose"; Some "win"]) "EURUSD" "call" []
           empty_world).
  simpl. lia.
Defined.

(** ** The two waits at their edges *)

Lemma released_iff p sb now :
  0 < p ->
  released p sb now = true
  <-> (inject_Z ((Qfloor (now / inject_Z p) + 1) * p) - inject_Z sb
       <= now)%Q.
Proof.
  intros Hp. unfold released.
  rewrite (next_candle_value now p) by lia. apply Qle_bool_iff.
Qed.

Lemma released_window p sb now :
  0 < p ->
  released p sb now = true
  <-> (inject_Z (Qfloor (now / inject_Z p) * p) + inject_Z (p - sb)
       <= now)%Q.
Proof.
  intros Hp. rewrite (released_iff p sb now Hp).
  replace ((Qfloor (now / inject_Z p) + 1) * p)
    with (Qfloor (now / inject_Z p) * p + p) by ring.
  unfold Z.sub. rewrite !inject_Z_plus, inject_Z_opp.
  split; intros H; lra.
Qed.

Lemma first_released_none p sb ts :
  (forall t, released p sb t = false) -> first_released p sb ts = None.
Proof.
  intros Hno. induction ts as [|t rest IH]; [reflexivity|].
  simpl. now rewrite Hno, IH.
Qed.

(** X14. With a lead of zero or less the pre-close wait never ends: the
    boundary it computes lies strictly after every reading, so for a
    positive period it is still waiting after any number of polls,
    whatever the clock shows. *)
Theorem wait_until_next_candle_never_released p sb fuel E w :
  0 < p -> sb <= 0 ->
  wait_until_next_candle fuel E p sb w = Waiting.
Proof.
  intros Hp Hsb.
  rewrite wait_until_next_candle_run by lia.
  rewrite first_released_none; [reflexivity|].
  intros t. destruct (released p sb t) eqn:Hrel; [|reflexivity].
  exfalso. apply (released_iff p sb t Hp) in Hrel.
  destruct (floor_multiples t p Hp) as [_ Hhi].
  assert (Hq : (inject_Z sb <= 0)%Q).
  { change 0%Q with (inject_Z 0). now rewrite <- Zle_Qle. }
  lra.
Qed.

Lemma wait_until_next_candle_never_released_witness :
  wait_until_next_candle 100 (ticking 0 (1 # 10)) 60 0 empty_world
  = Waiting.
Proof.
  apply (wait_until_next_candle_never_released 60 0 100
           (ticking 0 (1 # 10)) empty_world); lia.
Defined.

(** X15. With a lead of a whole period or more the pre-close wait is no
    wait: for a positive period it returns after its first look at the
    clock, without sleeping, whatever the clock shows. *)
Theorem wait_until_next_candle_immediate p sb fuel E w :
  0 < p -> p <= sb ->
  wait_until_next_candle fuel E p sb w
  = Returned (emit (Now (clock E (trace w))) w).
Proof.
  intros Hp Hsb.
  rewrite wait_until_next_candle_step by lia.
  assert (Hrel : released p sb (clock E (trace w)) = true).
  { apply (released_window p sb _ Hp).
    destruct (floor_multiples (clock E (trace w)) p Hp) as [Hlo _].
    assert (Hq : (inject_Z (p - sb) <= 0)%Q).
    { change 0%Q with (inject_Z 0). rewrite <- Zle_Qle. lia. }
    lra. }
  now rewrite Hrel.
Qed.

Lemma wait_until_next_candle_immediate_witness :
  wait_until_next_candle 0 (clock_at 120) 60 60 empty_world
  = Returned (emit (Now (clock (clock_at 120) (trace empty_world)))
                   empty_world).
Proof.
  apply (wait_until_next_candle_immediate 60 60 0 (clock_at 120)
           empty_world); lia.
Defined.

(** A period of zero makes the pre-close wait raise at its first
    poll: the floor division by the period fails before anything is
    compared, and nothing in the loop catches it. *)
Lemma wait_until_next_candle_zero_period fuel E sb w :
  wait_until_next_candle fuel E 0 sb w = Raised.
Proof. destruct fuel; reflexivity. Qed.

Lemma wait_for_candle_start_step cfg E fuel w :
  wait_for_candle_start fuel cfg E w =
    if second_of (clock E (trace w)) =? 0 then
      if period cfg / 60 =? 0 then Raised
      else if minute_of (clock E (trace w)) mod (period cfg / 60) =? 0 then
        Returned (emit (Now (clock E (trace w))) w)
      else
        match fuel with
        | O => Waiting
        | S fuel' =>
            wait_for_candle_start fuel' cfg E
              (emit (Sleep (1 # 10)) (emit (Now (clock E (trace w))) w))
        end
    else
      match fuel with
      | O => Waiting
      | S fuel' =>
          wait_for_candle_start fuel' cfg E
            (emit (Sleep (1 # 10)) (emit (Now (clock E (trace w))) w))
      end.
Proof. destruct fuel; reflexivity. Qed.



(** X17. When [period // 60] is not zero, the wait for the candle start
    returns at the first poll whose reading has second 0 and a minute that
    is a multiple of [period // 60], having slept a tenth of a second after
    each earlier poll; while no reading is such, it goes on waiting. It
    never raises and changes nothing but the history. *)
Theorem wait_for_candle_start_run cfg E fuel w :
  period cfg / 60 <> 0 ->
  wait_for_candle_start fuel cfg E w =
    match first_reading (at_candle_start cfg)
            (readings (S fuel) E (trace w)) with
    | Some (before, t) =>
        Returned {| pairs := pairs w;
                    trace := trace w ++ polls before ++ [Now t] |}
    | None => Waiting
    end.
Proof.
  intros Hp. apply Z.eqb_neq in Hp. revert w.
  induction fuel as [|fuel IH]; intros w;
    rewrite wait_for_candle_start_step, Hp.
  - change (readings 1 E (trace w)) with [clock E (trace w)].
    cbn [first_reading]. unfold at_candle_start.
    destruct (second_of _ =? 0); [|reflexivity].
    destruct (_ mod _ =? 0); reflexivity.
  - change (readings (S (S fuel)) E (trace w))
      with (clock E (trace w)
            :: readings (S fuel) E
                 (trace w ++ [Now (clock E (trace w)); Sleep (1 # 10)])).
    cbn [first_reading]. unfold at_candle_start at 1.
    assert (Hnext :
      wait_for_candle_start fuel cfg E
        (emit (Sleep (1 # 10)) (emit (Now (clock E (trace w))) w))
      = match
          match first_reading (at_candle_start cfg)
                  (readings (S fuel) E
                     (trace w ++ [Now (clock E (trace w)); Sleep (1 # 10)]))
          with
          | Some (before, x) => Some (clock E (trace w) :: before, x)
          | None => None
          end
        with
        | Some (before, t) =>
            Returned {| pairs := pairs w;
                        trace := trace w ++ polls before ++ [Now t] |}
        | None => Waiting
        end).
    { rewrite IH.
      replace (trace (emit (Sleep (1 # 10))
                        (emit (Now (clock E (trace w))) w)))
        with (trace w ++ [Now (clock E (trace w)); Sleep (1 # 10)])%list
        by (simpl; now rewrite <- app_assoc).
      destruct (first_reading _ _) as [[before t]|]; [|reflexivity].
      simpl. now rewrite <- app_assoc. }
    destruct (second_of _ =? 0); [|exact Hnext].
    destruct (_ mod _ =? 0); [reflexivity | exact Hnext].
Qed.

Lemma wait_for_candle_start_run_witness :
  wait_for_candle_start 30 bot_settings (ticking (17999 # 10) (1 # 20))
                        empty_world
  = match first_reading (at_candle_start bot_settings)
            (readings 31 (ticking (17999 # 10) (1 # 20))
                      (trace empty_world)) with
    | Some (before, t) =>
        Returned {| pairs := pairs empty_world;
                    trace := trace empty_world ++ polls before ++ [Now t] |}
    | None => Waiting
    end.
Proof.
  apply (wait_for_candle_start_run bot_settings
           (ticking (17999 # 10) (1 # 20)) 30 empty_world).
  discriminate.
Defined.

(** X18. For a period of [k] minutes with [k] a divisor of 60 (1, 2, 3,
    5, 15, ... minutes), the wait for the candle start opens exactly at
    the candle boundaries of the pre-close wait: a reading satisfies its
    condition if and only if the whole second it falls in is a multiple of
    the period, counted from the epoch. *)
Theorem at_candle_start_is_boundary cfg k now :
  period cfg = 60 * k -> 0 < k -> (k | 60) ->
  at_candle_start cfg now = true <-> Qfloor now mod period cfg = 0.
Proof.
  intros Hper Hk Hdiv. unfold at_candle_start, second_of, minute_of.
  rewrite Hper.
  replace (60 * k / 60) with k
    by (now rewrite (Z.mul_comm 60 k), Z.div_mul).
  rewrite andb_true_iff, !Z.eqb_eq.
  rewrite (Z.mod_mod_divide (Qfloor now / 60) 60 k Hdiv).
  set (F := Qfloor now).
  pose proof (Z.div_mod F 60 ltac:(lia)) as H60.
  pose proof (Z.div_mod (F / 60) k ltac:(lia)) as Hk60.
  split.
  - intros [Hs Hm]. rewrite Hs in H60. rewrite Hm in Hk60.
    apply Z.mod_divide; [lia|].
    exists (F / 60 / k). lia.
  - intros Hmod. apply Z.mod_divide in Hmod; [|lia].
    destruct Hmod as [q Hq].
    assert (Hs : F mod 60 = 0).
    { apply Z.mod_divide; [lia|]. exists (q * k). lia. }
    split; [exact Hs|].
    apply Z.mod_divide; [lia|]. exists q.
    rewrite Hs in H60. nia.
Qed.

Lemma at_candle_start_is_boundary_witness :
  at_candle_start (with_period 300) 1800 = true
  <-> Qfloor 1800 mod period (with_period 300) = 0.
Proof.
  apply (at_candle_start_is_boundary (with_period 300) 5 1800).
  - reflexivity.
  - lia.
  - exists 12. reflexivity.
Defined.

(** ** Instrument names at the candle provider *)

Lemma substring_whole s : substring 0 (String.length s) s = s.
Proof. induction s as [|c s IH]; simpl; [reflexivity | now rewrite IH]. Qed.

(** The provider's name, case by case on the length of the name. *)
Lemma oanda_name_cases p :
  (exists a b c rest,
      p = String a (String b (String c rest))
      /\ oanda_name p = String a (String b (String c (String "_" rest))))
  \/ ((String.length p < 3)%nat /\ oanda_name p = p ++ "_").
Proof.
  unfold oanda_name, Py.slice_to, Py.slice_from.
  destruct p as [|a [|b [|c rest]]].
  - right. split; [simpl; lia | reflexivity].
  - right. split; [simpl; lia | reflexivity].
  - right. split; [simpl; lia | reflexivity].
  - left. exists a, b, c, rest. split; [reflexivity|].
    simpl. rewrite Nat.sub_0_r, substring_whole.
    now destruct rest.
Qed.

Lemma append_underscore_injective p q : p ++ "_" = q ++ "_" -> p = q.
Proof.
  revert q. induction p as [|a p IH]; intros [|b q]; simpl; intros H.
  - reflexivity.
  - injection H as _ H. destruct q; discriminate.
  - injection H as _ H. destruct p; discriminate.
  - injection H as -> H. f_equal. now apply IH.
Qed.

Lemma append_length s t :
  String.length (s ++ t) = (String.length s + String.length t)%nat.
Proof. induction s as [|c s IH]; simpl; [reflexivity | now rewrite IH]. Qed.

(** X19. The mapping of an instrument name to the provider's name
    ([pair[:3] + "_" + pair[3:]]) loses nothing: the provider's name is
    one character longer than the name, and two different names never get
    the same provider's name, also when they are shorter than three
    characters. *)
Theorem oanda_name_injective p q :
  oanda_name p = oanda_name q ->
  p = q /\ String.length (oanda_name p) = S (String.length p).
Proof.
  intros Heq.
  assert (Hlen : forall s, String.length (oanda_name s)
                           = S (String.length s)).
  { intros s.
    destruct (oanda_name_cases s) as [(a & b & c & rest & -> & ->)|[_ ->]].
    - reflexivity.
    - rewrite append_length. simpl. lia. }
  split; [|apply Hlen].
  pose proof (Hlen p) as Hp. pose proof (Hlen q) as Hq.
  rewrite Heq in Hp.
  destruct (oanda_name_cases p) as [(a & b & c & rest & Hpe & Hpn)|[Hps Hpn]];
    destruct (oanda_name_cases q)
      as [(a' & b' & c' & rest' & Hqe & Hqn)|[Hqs Hqn]].
  - rewrite Hpn, Hqn in Heq. injection Heq as -> -> -> ->. congruence.
  - subst p. simpl in *. lia.
  - subst q. simpl in *. lia.
  - rewrite Hpn, Hqn in Heq. now apply append_underscore_injective.
Qed.

Lemma oanda_name_injective_witness :
  "EURUSD" = "EURUSD"
  /\ String.length (oanda_name "EURUSD") = S (String.length "EURUSD").
Proof. apply (oanda_name_injective "EURUSD" "EURUSD"). reflexivity. Defined.

(** ** Cycles and the loop *)

(** What a completed cycle adds: the state is the one [get_payout] left,
    the candle requests follow a prefix of the keys, and at most one
    ladder with at most [max 1 MARTINGALE_LEVEL] orders is run. *)
Lemma trading_cycle_run fuel cfg E w w' :
  trading_cycle fuel cfg E w = Returned w' ->
  exists delta visited skipped,
    w' = {| pairs := pairs (snd (get_payout cfg E
                                   (emit (Log MsgCycleStart) w)));
            trace := trace w ++ delta |}
    /\ PyDict.keys (pairs w') = (visited ++ skipped)%list
    /\ map fst (fetches delta) = map oanda_name visited
    /\ (ladders delta <= 1)%nat
    /\ Z.of_nat (List.length (orders delta))
       <= Z.max 1 (MARTINGALE_LEVEL cfg)
    /\ Forall (fun o => In (order_pair o) (PyDict.keys (pairs w')))
              (orders delta).
Proof.
  unfold trading_cycle.
  destruct (get_payout_quiet cfg E (emit (Log MsgCycleStart) w))
    as (d1 & Ht1 & Hq1).
  destruct (get_payout cfg E (emit (Log MsgCycleStart) w)) as [ok w1].
  simpl in Ht1. simpl fst. simpl snd.
  destruct ok; simpl negb; cbv iota.
  - destruct (wait_until_next_candle fuel E (period cfg) 15 w1)
      as [w2| |] eqn:Hw2; try discriminate.
    destruct (wait_until_next_candle_quiet _ _ _ _ _ _ Hw2)
      as (d2 & -> & Hq2).
    cbn [bind]. clear Hw2.
    match goal with
    | |- context [scan_pairs E ?ks ?w0] =>
        destruct (scan_pairs E ks w0) as [[selected w3]| |] eqn:Hscan
    end; try discriminate.
    destruct (scan_pairs_run _ _ _ _ _ Hscan)
      as (d3 & -> & Ho3 & Hl3 & Hsel).
    cbn [bind]. clear Hscan.
    match goal with
    | |- context [wait_for_candle_start fuel cfg E ?w0] =>
        destruct (wait_for_candle_start fuel cfg E w0) as [w4| |] eqn:Hw4
    end; try discriminate.
    destruct (wait_for_candle_start_quiet _ _ _ _ _ Hw4)
      as (d4 & -> & Hq4).
    cbn [bind]. clear Hw4. simpl pairs. simpl trace.
    rewrite Ht1. simpl pairs in Hsel.
    set (n := List.length (pairs w1)).
    set (pre := (Log MsgCycleStart
                 :: d1 ++ d2 ++ [Log MsgPreClose; Log (MsgChecking n)])%list).
    assert (Hpre : forallb is_quiet pre = true).
    { unfold pre. simpl. now rewrite !forallb_app, Hq1, Hq2. }
    destruct (quiet_events d4 Hq4) as (Hf4 & Hs4 & Hl4 & Ho4).
    assert (Hscanned : exists visited skipped,
               PyDict.keys (pairs w1) = (visited ++ skipped)%list
               /\ map fst (fetches d3) = map oanda_name visited).
    { destruct selected as [[[p a] df]|].
      - destruct Hsel as (before & skipped & fs & r & Hk & Hf & Hm & _).
        exists (before ++ [p])%list, skipped. rewrite <- app_assoc.
        split; [exact Hk|]. now rewrite Hf, !map_app, Hm.
      - destruct Hsel as (Hm & _). exists (PyDict.keys (pairs w1)), [].
        now rewrite app_nil_r. }
    destruct Hscanned as (visited & skipped & Hkeys & Hfetched).
    intros Hcycle.
    assert (Hw' : exists post,
               w' = {| pairs := pairs w1;
                       trace := trace w ++ pre ++ d3 ++ post |}
               /\ fetches post = [] /\ selections post = []
               /\ (ladders post <= 1)%nat
               /\ Z.of_nat (List.length (orders post))
                  <= Z.max 1 (MARTINGALE_LEVEL cfg)
               /\ Forall (fun o => In (order_pair o)
                                      (PyDict.keys (pairs w1)))
                         (orders post)).
    { assert (Hnone :
          Returned
            (emit (Sleep 1)
               (emit (Log MsgNoValidSignal)
                  {| pairs := pairs w1;
                     trace := ((((((trace w ++ [Log MsgCycleStart]) ++ d1)
                                  ++ d2) ++ [Log MsgPreClose])
                                ++ [Log (MsgChecking n)]) ++ d3) ++ d4 |}))
          = Returned w' ->
          exists post,
            w' = {| pairs := pairs w1;
                    trace := trace w ++ pre ++ d3 ++ post |}
            /\ fetches post = [] /\ selections post = []
            /\ (ladders post <= 1)%nat
            /\ Z.of_nat (List.length (orders post))
               <= Z.max 1 (MARTINGALE_LEVEL cfg)
            /\ Forall (fun o => In (order_pair o)
                                   (PyDict.keys (pairs w1)))
                      (orders post)).
      { intros [= <-]. exists (d4 ++ [Log MsgNoValidSignal; Sleep 1])%list.
        split.
        { unfold emit, pre. simpl. f_equal.
          repeat (rewrite <- !app_assoc; simpl). reflexivity. }
        rewrite fetches_app, selections_app, orders_app, ladders_app.
        rewrite Hf4, Hs4, Hl4, Ho4. cbn -[Z.max].
        repeat split; try lia. constructor. }
      destruct selected as [[[p a] df]|]; [|exact (Hnone Hcycle)].
      destruct (negb (p =? "")%string && negb (a =? "")%string);
        [|exact (Hnone Hcycle)].
      revert Hcycle.
      match goal with
      | |- context [martingale_strategy cfg E p a df ?w0] =>
          pose proof (ladder_attempts_count cfg E p a df w0) as Hcount;
          destruct (martingale_strategy_run cfg E p a df w0)
            as (d5 & -> & Hev & _ & Ho5 & rest & -> & Hexe)
      end.
      rewrite Hev in Hcount. cbn [attempts] in Hcount.
      cbn [bind]. intros [= <-].
      exists (d4 ++ Log (MsgExecuting p a)
                 :: Log (MsgTradeData (Py.tail 5 df))
                 :: rest ++ [Sleep 1])%list.
      destruct (executor_events rest Hexe) as (Hf5 & Hs5 & Hl5).
      split.
      { unfold emit, pre. simpl. f_equal.
        repeat (rewrite <- !app_assoc; simpl). reflexivity. }
      rewrite fetches_app, selections_app, orders_app, ladders_app.
      rewrite Hf4, Hs4, Hl4, Ho4.
      change (Log (MsgExecuting p a) :: Log (MsgTradeData (Py.tail 5 df))
              :: rest ++ [Sleep 1])%list
        with ([Log (MsgExecuting p a); Log (MsgTradeData (Py.tail 5 df))]
              ++ rest ++ [Sleep 1])%list.
      rewrite !fetches_app, !selections_app, !orders_app, !ladders_app.
      rewrite Hf5, Hs5, Hl5. simpl in Ho5. cbn -[Z.max].
      rewrite app_nil_r, Ho5, !length_map.
      repeat split; try lia.
      apply Forall_forall. intros o Ho. apply in_map_iff in Ho.
      destruct Ho as (stake & <- & _). unfold order_pair. simpl.
      destruct Hsel as (before & skipped' & fs & r & Hk & _).
      rewrite Hk. apply in_or_app. right. now left. }
    destruct Hw' as (post & -> & Hfp & Hsp & Hlp & Hop & Hin).
    clear Hcycle.
    destruct (observe_around pre d3 post Hpre Hfp Hsp)
      as (Hf & Hs & Hl & Ho).
    exists (pre ++ d3 ++ post)%list, visited, skipped.
    simpl pairs. rewrite Hf, Hl, Ho, Ho3, Hl3. cbn -[Z.max].
    repeat split; assumption.
  - intros [= <-].
    exists (Log MsgCycleStart :: d1 ++ [Log MsgPayoutFailed; Sleep 5])%list,
      [], (PyDict.keys (pairs w1)).
    assert (Hq : forallb is_quiet
                   (Log MsgCycleStart
                    :: d1 ++ [Log MsgPayoutFailed; Sleep 5]) = true).
    { simpl. now rewrite forallb_app, Hq1. }
    destruct (quiet_events _ Hq) as (Hf & Hs & Hl & Ho).
    rewrite Hf, Hl, Ho. cbn -[Z.max].
    repeat split; try lia; try constructor.
    unfold emit. simpl. rewrite Ht1. f_equal.
    repeat (rewrite <- !app_assoc; simpl). reflexivity.
Qed.

Lemma get_payout_body_NoDup cfg e p p' :
  get_payout_body cfg e p = Some p' ->
  NoDup (PyDict.keys p) -> NoDup (PyDict.keys p').
Proof.
  unfold get_payout_body, obind.
  destruct (Py.getitem e 1) as [name|]; [|discriminate].
  destruct (Py.getitem e 5) as [pay|]; [|discriminate].
  destruct (Py.getitem e 3) as [ty|]; [|discriminate].
  destruct (Py.getitem e 14) as [act|]; [|discriminate].
  destruct (Py.endswith name "_otc") as [otc|]; [|discriminate].
  destruct (negb otc && Py.eq_str ty "currency" && Py.truthy act);
    [|now intros [= <-]].
  destruct (Py.ge_int pay (min_payout cfg)) as [[|]|]; [| |discriminate];
    destruct name; try discriminate.
  - intros [= <-]. apply PyDictFacts.keys_set_NoDup.
  - destruct (PyDict.mem s p); intros [= <-]; [|tauto].
    apply PyDictFacts.keys_del_NoDup.
Qed.

Lemma get_payout_NoDup cfg E w :
  NoDup (PyDict.keys (pairs w)) ->
  NoDup (PyDict.keys (pairs (snd (get_payout cfg E w)))).
Proof.
  intros Hd. unfold get_payout.
  destruct (d <-? PayoutData E (trace w);; Py.iter d) as [items|];
    [|exact Hd].
  assert (Hl : forall p, NoDup (PyDict.keys p) ->
                         NoDup (PyDict.keys
                                  (snd (get_payout_loop cfg items p)))).
  { induction items as [|e rest IH]; intros p Hp; simpl; [exact Hp|].
    destruct (get_payout_body cfg e p) as [p1|] eqn:Hb; [|exact Hp].
    apply IH. now apply (get_payout_body_NoDup cfg e p). }
  specialize (Hl (pairs w) Hd).
  destruct (get_payout_loop cfg items (pairs w)) as [[|] p']; exact Hl.
Qed.

Lemma NoDup_oanda_names l :
  NoDup l -> NoDup (map oanda_name l).
Proof.
  induction 1 as [|x l Hnin Hl IH]; simpl; constructor; [|exact IH].
  intros Hin. apply in_map_iff in Hin. destruct Hin as (y & Hy & Hyl).
  assert (Heq : y = x).
  { destruct (oanda_name_cases y)
      as [(a & b & c & r & Hye & Hyn)|[Hys Hyn]];
      destruct (oanda_name_cases x)
        as [(a' & b' & c' & r' & Hxe & Hxn)|[Hxs Hxn]];
      rewrite Hyn, Hxn in Hy.
    - injection Hy as -> -> -> ->. congruence.
    - apply (f_equal String.length) in Hy.
      rewrite append_length in Hy. subst y. simpl in *. lia.
    - apply (f_equal String.length) in Hy.
      rewrite append_length in Hy. subst x. simpl in *. lia.
    - now apply append_underscore_injective. }
  subst y. contradiction.
Qed.

(** X20. In a cycle that comes to its end no instrument is asked for
    twice and none is asked for that is not in the eligible set: with the
    keys of the set distinct before the cycle (as in any dict), the candle
    requests of the cycle name distinct instruments, and there are no more
    of them than the set has members after the refresh, in which the keys
    are distinct again. *)
Theorem cycle_requests_each_instrument_once fuel cfg E w w' :
  trading_cycle fuel cfg E w = Returned w' ->
  NoDup (PyDict.keys (pairs w)) ->
  exists delta,
    trace w' = (trace w ++ delta)%list
    /\ NoDup (map fst (fetches delta))
    /\ (List.length (fetches delta) <= List.length (pairs w'))%nat
    /\ NoDup (PyDict.keys (pairs w')).
Proof.
  intros Hcycle Hd.
  destruct (trading_cycle_run fuel cfg E w w' Hcycle)
    as (delta & visited & skipped & Hw' & Hkeys & Hf & _).
  assert (Hd' : NoDup (PyDict.keys (pairs w'))).
  { rewrite Hw'. simpl. apply get_payout_NoDup. exact Hd. }
  exists delta. split; [now rewrite Hw'|]. split; [|split; [|exact Hd']].
  - rewrite Hf. apply NoDup_oanda_names.
    rewrite Hkeys in Hd'. now apply NoDup_app_remove_r in Hd'.
  - rewrite <- (length_map fst (fetches delta)), Hf, length_map.
    rewrite <- (length_map fst (pairs w')).
    change (map fst (pairs w')) with (PyDict.keys (pairs w')).
    rewrite Hkeys, length_app. lia.
Qed.

Lemma cycle_requests_each_instrument_once_witness :
  exists delta,
    trace (world_of cycle_example) = (trace empty_world ++ delta)%list
    /\ NoDup (map fst (fetches delta))
    /\ (List.length (fetches delta)
        <= List.length (pairs (world_of cycle_example)))%nat
    /\ NoDup (PyDict.keys (pairs (world_of cycle_example))).
Proof.
  apply (cycle_requests_each_instrument_once 3%nat bot_settings
           (market three_pairs ["GBP_USD"; "USD_JPY"] 3650 [Some "win"])
           empty_world (world_of cycle_example)).
  - reflexivity.
  - constructor.
Defined.

(** What the first [cycles] cycles add, when all of them come to their
    end. *)
Lemma main_trading_loop_run cfg E fuel cycles : forall w w',
  main_trading_loop cycles fuel cfg E w = Returned w' ->
  exists delta,
    trace w' = (trace w ++ delta)%list
    /\ (ladders delta <= cycles)%nat
    /\ Z.of_nat (List.length (orders delta))
       <= Z.of_nat cycles * Z.max 1 (MARTINGALE_LEVEL cfg)
    /\ (forallb (eligible_record cfg) (pairs w) = true ->
        forallb (eligible_record cfg) (pairs w') = true
        /\ Forall (fun o => Py.str_endswith (order_pair o) "_otc" = false)
                  (orders delta)).
Proof.
  induction cycles as [|n IH]; intros w w'.
  - simpl. intros [= <-]. exists []. rewrite app_nil_r.
    repeat split; simpl; try lia; auto.
  - cbn [main_trading_loop].
    destruct (trading_cycle fuel cfg E w) as [w1| |] eqn:Hc;
      try discriminate.
    cbn [bind]. intros Hrest.
    destruct (trading_cycle_run fuel cfg E w w1 Hc)
      as (d1 & visited & skipped & Hw1 & Hkeys & Hf & Hl1 & Ho1 & Hin1).
    destruct (IH w1 w' Hrest) as (d2 & Ht2 & Hl2 & Ho2 & Hinv2).
    exists (d1 ++ d2)%list.
    rewrite ladders_app, orders_app, length_app.
    split; [rewrite Ht2, Hw1; simpl; now rewrite app_assoc|].
    split; [lia|]. split; [lia|].
    intros Hclean.
    assert (Hclean1 : forallb (eligible_record cfg) (pairs w1) = true).
    { rewrite Hw1. simpl.
      apply get_payout_eligible. now simpl. }
    destruct (Hinv2 Hclean1) as [Hclean' Hotc2].
    split; [exact Hclean'|].
    apply Forall_app. split; [|exact Hotc2].
    eapply Forall_impl; [|exact Hin1].
    intros o Ho. simpl in Ho. apply in_map_iff in Ho.
    destruct Ho as ([k v] & Hk & Hkv). simpl in Hk. subst k.
    rewrite forallb_forall in Hclean1. specialize (Hclean1 _ Hkv).
    unfold eligible_record in Hclean1. simpl in Hclean1.
    apply andb_prop in Hclean1. destruct Hclean1 as [Hc1 _].
    apply andb_prop in Hc1. destruct Hc1 as [Hc1 _].
    now apply negb_true_iff in Hc1.
Qed.

(** X21. Cycles add up: when the first [n] cycles of the loop all come to
    their end, they have started at most [n] ladders and placed at most
    [n * max 1 MARTINGALE_LEVEL] orders together. *)
Theorem main_trading_loop_bounds cfg E fuel cycles w w' :
  main_trading_loop cycles fuel cfg E w = Returned w' ->
  exists delta,
    trace w' = (trace w ++ delta)%list
    /\ (ladders delta <= cycles)%nat
    /\ Z.of_nat (List.length (orders delta))
       <= Z.of_nat cycles * Z.max 1 (MARTINGALE_LEVEL cfg).
Proof.
  intros Hloop.
  destruct (main_trading_loop_run cfg E fuel cycles w w' Hloop)
    as (delta & Ht & Hl & Ho & _).
  exists delta. repeat split; assumption.
Qed.

Lemma main_trading_loop_bounds_witness :
  exists delta,
    trace (world_of two_cycles) = (trace empty_world ++ delta)%list
    /\ (ladders delta <= 2)%nat
    /\ Z.of_nat (List.length (orders delta))
       <= Z.of_nat 2 * Z.max 1 (MARTINGALE_LEVEL bot_settings).
Proof.
  apply (main_trading_loop_bounds bot_settings
           (open_market three_pairs ["GBP_USD"]
              [Some "loose"; Some "loose"; Some "win"; Some "win"])
           3%nat 2%nat empty_world (world_of two_cycles)).
  reflexivity.
Defined.

(** X22. The loop never trades an over-the-counter instrument: started
    with an eligible set whose records are all non-OTC currencies with a
    payout that reaches the minimum (the empty set is one), it ends any
    number of completed cycles with such a set, and none of the orders it
    placed is on a name that ends with ['_otc']. *)
Theorem main_trading_loop_never_trades_otc cfg E fuel cycles w w' :
  main_trading_loop cycles fuel cfg E w = Returned w' ->
  forallb (eligible_record cfg) (pairs w) = true ->
  exists delta,
    trace w' = (trace w ++ delta)%list
    /\ forallb (eligible_record cfg) (pairs w') = true
    /\ Forall (fun o => Py.str_endswith (order_pair o) "_otc" = false)
              (orders delta).
Proof.
  intros Hloop Hclean.
  destruct (main_trading_loop_run cfg E fuel cycles w w' Hloop)
    as (delta & Ht & _ & _ & Hinv).
  destruct (Hinv Hclean) as [Hclean' Hotc].
  exists delta. repeat split; assumption.
Qed.

Lemma main_trading_loop_never_trades_otc_witness :
  exists delta,
    trace (world_of two_cycles) = (trace empty_world ++ delta)%list
    /\ forallb (eligible_record bot_settings) (pairs (world_of two_cycles))
       = true
    /\ Forall (fun o => Py.str_endswith (order_pair o) "_otc" = false)
              (orders delta).
Proof.
  apply (main_trading_loop_never_trades_otc bot_settings
           (open_market three_pairs ["GBP_USD"]
              [Some "loose"; Some "loose"; Some "win"; Some "win"])
           3%nat 2%nat empty_world (world_of two_cycles));
    reflexivity.
Defined.

(** ** Feeds of the wrong shape *)

Lemma passes_gate_string s : passes_gate (JStr s) = false.
Proof.
  unfold passes_gate, is_currency. simpl.
  destruct (String.get 3 s) as [c|]; simpl.
  - destruct (Ascii.eqb c "c"); simpl; now rewrite andb_false_r.
  - now rewrite andb_false_r.
Qed.

Lemma get_payout_loop_strings cfg items : forall p,
  Forall (fun e => exists s, e = JStr s) items ->
  snd (get_payout_loop cfg items p) = p.
Proof.
  induction items as [|e rest IH]; intros p Hall; [reflexivity|].
  inversion Hall as [|? ? [s ->] Hrest]; subst. simpl.
  destruct (get_payout_body cfg (JStr s) p) as [p1|] eqn:Hb; [|reflexivity].
  apply get_payout_body_gate in Hb; [|apply passes_gate_string].
  subst p1. now apply IH.
Qed.

(** X23. A feed that parses to anything but a list never changes the
    eligible set: a number, a boolean or null cannot be iterated, and the
    keys of an object or the characters of a string, which the loop then
    takes for entries, never have the asset class ["currency"]. *)
Theorem get_payout_ignores_non_list cfg E w d :
  PayoutData E (trace w) = Some d ->
  (forall l, d <> JArr l) ->
  pairs (snd (get_payout cfg E w)) = pairs w.
Proof.
  intros Hd Hnot. unfold get_payout. rewrite Hd. simpl.
  assert (Hitems : forall items,
             Forall (fun e => exists s, e = JStr s) items ->
             pairs (snd (let '(ok, pairs') :=
                           get_payout_loop cfg items (pairs w) in
                         if ok then (true, set_pairs pairs' w)
                         else (false,
                               emit (Log MsgPayoutParseFailed)
                                    (set_pairs pairs' w))))
             = pairs w).
  { intros items Hall.
    pose proof (get_payout_loop_strings cfg items (pairs w) Hall) as Hl.
    destruct (get_payout_loop cfg items (pairs w)) as [[|] p'];
      simpl in *; exact Hl. }
  destruct d as [|b|z|f|s|l|kvs]; simpl; try reflexivity.
  - apply Hitems. clear. induction s as [|c s IH]; simpl; constructor;
      eauto.
  - now destruct (Hnot l).
  - apply Hitems. clear. induction kvs as [|kv kvs IH]; simpl; constructor;
      eauto.
Qed.

Lemma get_payout_ignores_non_list_witness :
  pairs (snd (get_payout bot_settings
                (with_feed
                   (Some (JObj [("EURUSD_currency_75_true", JInt 75)]))
                   silent)
                holds_eurusd))
  = pairs holds_eurusd.
Proof.
  apply (get_payout_ignores_non_list bot_settings
           (with_feed (Some (JObj [("EURUSD_currency_75_true", JInt 75)]))
                      silent)
           holds_eurusd
           (JObj [("EURUSD_currency_75_true", JInt 75)])).
  - reflexivity.
  - discriminate.
Defined.

(** ** The time a ladder takes *)

Lemma ladder_trace_slept cfg pair action amount t :
  ladder_trace cfg pair action amount t ->
  (slept t ==
   inject_Z (expiration cfg)
   * inject_Z (Z.of_nat (count_events is_check_win t))
   + (if match final_state t with
         | Aborted => true
         | _ => false
         end then 2 else 0))%Q.
Proof.
  induction 1 as [amount reply Hf|amount id r Hr|amount id r Hr
                  |amount id r rest Hr Hrest IH].
  - simpl. ring.
  - simpl. ring.
  - simpl. ring.
  - pose proof (ladder_trace_nonempty _ _ _ _ _ Hrest) as Hne.
    rewrite (final_state_after3 _ _ _ _ Hne).
    cbn [slept fold_right]. fold (slept rest). rewrite IH.
    unfold count_events. cbn [filter is_check_win List.length].
    rewrite Nat2Z.inj_succ. unfold Z.succ. rewrite inject_Z_plus.
    ring.
Qed.

(** X24. The sleeps of a ladder add up to one expiry for every trade it
    asked the result of, plus the two seconds of the reconnect when it
    ends Aborted: the ladder blocks the loop for at most
    [max 1 MARTINGALE_LEVEL] expiries of sleep when it runs to its end. *)
Theorem ladder_sleep_time cfg E pair action df w :
  (slept (ladder_events cfg E pair action df w) ==
   inject_Z (expiration cfg)
   * inject_Z (Z.of_nat (count_events is_check_win
                           (ladder_events cfg E pair action df w)))
   + (if match final_state (ladder_events cfg E pair action df w) with
         | Aborted => true
         | _ => false
         end then 2 else 0))%Q
  /\ Z.of_nat (count_events is_check_win
                 (ladder_events cfg E pair action df w))
     <= Z.max 1 (MARTINGALE_LEVEL cfg).
Proof.
  pose proof (ladder_attempts_count cfg E pair action df w) as Hcount.
  destruct (martingale_strategy_trace cfg E pair action df w)
    as (rest & Hev & Hgr).
  rewrite Hev in *. split.
  - change (Log (MsgTradeData (Py.tail 5 df)) :: rest)
      with ([Log (MsgTradeData (Py.tail 5 df))] ++ rest)%list at 3.
    rewrite final_state_app by (now apply ladder_trace_nonempty in Hgr).
    exact (ladder_trace_slept _ _ _ _ _ Hgr).
  - cbn [attempts] in Hcount.
    assert (Hle : (count_events is_check_win rest
                   <= List.length (attempts rest))%nat).
    { clear Hcount Hev.
      induction Hgr; unfold count_events in *; simpl in *; lia. }
    unfold count_events in *. simpl. lia.
Qed.
